(** * Conversation store and send-message controller of vantage-webui

    A shallow embedding of [src/store/useChatStore.ts] (the zustand store),
    of [handleSendMessage] and the mount effect in
    [components/chat/ChatContainer.tsx], of the handlers of
    [components/chat/MessageInput.tsx], of the bubble selection of
    [components/chat/MessageList.tsx] and of the response interceptor and
    [retryRequest] of [services/api.ts], followed by the properties of the
    conversation state model and of the code around it.

    Conventions of the embedding:
    - a JavaScript string is a [string]; its characters stand for code units
      below 256, and [===] on strings is [String.eqb];
    - a JavaScript [number] that the store handles (epoch milliseconds, a
      processing time) is an integer of [Z]; the only falsy number is [0];
    - an optional property [p?: T] is an [option T], [None] standing for
      [undefined];
    - the two sources of nondeterminism, [uuidv4()] and [Date.now()], are
      explicit arguments of the operation that calls them;
    - an [async] function is split at its single [await]: the part that runs
      up to the suspension and the part that runs when the promise settles. *)

From Stdlib Require Import List String Ascii ZArith Bool Lia Sorted DecimalString.
Import ListNotations.
Local Open Scope string_scope.
Local Open Scope Z_scope.

(** ** Data model ([useChatStore.ts], lines 5-38) *)

Inductive Role : Type := user | agent.

Inductive Theme : Type := light | dark | system.

(** A value of TypeScript's [unknown]; the store and the controller only
    carry such values around, so the scalar ones are enough. *)
Inductive unknown : Type :=
| JsUndefined
| JsNull
| JsBool (b : bool)
| JsNumber (n : Z)
| JsString (s : string).

Record Message : Type := mkMessage {
  id : string;
  role : Role;
  content : string;
  timestamp : Z;
  toolsUsed : option (list unknown);
  processingTime : option Z;
  isStreaming : option bool;
  error : option string
}.

(** The argument of [addMessage]:
    [Omit<Message, 'id' | 'timestamp'> & { id?: string }]. *)
Record NewMessage : Type := mkNewMessage {
  n_id : option string;
  n_role : Role;
  n_content : string;
  n_toolsUsed : option (list unknown);
  n_processingTime : option Z;
  n_isStreaming : option bool;
  n_error : option string
}.

(** [Partial<Message>]: every key may be absent ([None]).  A key of an
    optional property may also be present with the value [undefined]
    ([Some None]), which the spread copies like any other value. *)
Record MessagePatch : Type := mkPatch {
  p_id : option string;
  p_role : option Role;
  p_content : option string;
  p_timestamp : option Z;
  p_toolsUsed : option (option (list unknown));
  p_processingTime : option (option Z);
  p_isStreaming : option (option bool);
  p_error : option (option string)
}.

Record UserPreferences : Type := mkPrefs {
  theme : option Theme;
  enableProfiling : option bool;
  userId : option string
}.

(** [Partial<UserPreferences>]. *)
Record PreferencesPatch : Type := mkPrefsPatch {
  q_theme : option (option Theme);
  q_enableProfiling : option (option bool);
  q_userId : option (option string)
}.

Record ChatState : Type := mkState {
  messages : list Message;
  sessionId : string;
  userPreferences : UserPreferences;
  isLoading : bool;
  streamingMessageId : option string
}.

(** [a ?? b] *)
Definition nullish {A : Type} (a : option A) (b : A) : A :=
  match a with Some x => x | None => b end.

(** One key of [{ ...a, ...b }]: the value of [b] when [b] has the key. *)
Definition spread {A : Type} (a : A) (b : option A) : A :=
  match b with Some x => x | None => a end.

(** [{ ...msg, ...updates }] *)
Definition mergeMessage (msg : Message) (updates : MessagePatch) : Message :=
  {| id := spread (id msg) (p_id updates);
     role := spread (role msg) (p_role updates);
     content := spread (content msg) (p_content updates);
     timestamp := spread (timestamp msg) (p_timestamp updates);
     toolsUsed := spread (toolsUsed msg) (p_toolsUsed updates);
     processingTime := spread (processingTime msg) (p_processingTime updates);
     isStreaming := spread (isStreaming msg) (p_isStreaming updates);
     error := spread (error msg) (p_error updates) |}.

(** [{ ...state.userPreferences, ...preferences }] *)
Definition mergePreferences (u : UserPreferences) (q : PreferencesPatch)
  : UserPreferences :=
  {| theme := spread (theme u) (q_theme q);
     enableProfiling := spread (enableProfiling u) (q_enableProfiling q);
     userId := spread (userId u) (q_userId q) |}.

(** ** The store ([useChatStore.ts], lines 42-104) *)

Definition defaultPreferences : UserPreferences :=
  {| theme := Some system;
     enableProfiling := Some false;
     userId := Some "default_user" |}.

(** The state the creator function builds; [uuid] is the value of
    [generateSessionId()]. *)
Definition initialState (uuid : string) : ChatState :=
  {| messages := [];
     sessionId := uuid;
     userPreferences := defaultPreferences;
     isLoading := false;
     streamingMessageId := None |}.

Definition set_messages (l : list Message) (st : ChatState) : ChatState :=
  {| messages := l;
     sessionId := sessionId st;
     userPreferences := userPreferences st;
     isLoading := isLoading st;
     streamingMessageId := streamingMessageId st |}.

(** The message [addMessage] builds:
    [{ ...message, id: message.id ?? uuidv4(), timestamp: Date.now() }]. *)
Definition newMessage (message : NewMessage) (uuid : string) (now : Z)
  : Message :=
  {| id := nullish (n_id message) uuid;
     role := n_role message;
     content := n_content message;
     timestamp := now;
     toolsUsed := n_toolsUsed message;
     processingTime := n_processingTime message;
     isStreaming := n_isStreaming message;
     error := n_error message |}.

(** [addMessage] returns the new state of the store and the created
    message. *)
Definition addMessage (message : NewMessage) (uuid : string) (now : Z)
    (st : ChatState) : ChatState * Message :=
  let m := newMessage message uuid now in
  (set_messages (messages st ++ [m]) st, m).

Definition updateMessage (i : string) (updates : MessagePatch)
    (st : ChatState) : ChatState :=
  set_messages
    (map (fun msg => if String.eqb (id msg) i then mergeMessage msg updates
                     else msg)
         (messages st))
    st.

Definition setStreamingMessageId (i : option string) (st : ChatState)
  : ChatState :=
  {| messages := messages st;
     sessionId := sessionId st;
     userPreferences := userPreferences st;
     isLoading := isLoading st;
     streamingMessageId := i |}.

Definition setLoading (loading : bool) (st : ChatState) : ChatState :=
  {| messages := messages st;
     sessionId := sessionId st;
     userPreferences := userPreferences st;
     isLoading := loading;
     streamingMessageId := streamingMessageId st |}.

Definition setSessionId (s : string) (st : ChatState) : ChatState :=
  {| messages := messages st;
     sessionId := s;
     userPreferences := userPreferences st;
     isLoading := isLoading st;
     streamingMessageId := streamingMessageId st |}.

Definition updateUserPreferences (preferences : PreferencesPatch)
    (st : ChatState) : ChatState :=
  {| messages := messages st;
     sessionId := sessionId st;
     userPreferences := mergePreferences (userPreferences st) preferences;
     isLoading := isLoading st;
     streamingMessageId := streamingMessageId st |}.

Definition clearMessages (st : ChatState) : ChatState :=
  set_messages [] st.

(** [uuid] is the value of [generateSessionId()]. *)
Definition resetSession (uuid : string) (st : ChatState) : ChatState :=
  {| messages := [];
     sessionId := uuid;
     userPreferences := userPreferences st;
     isLoading := false;
     streamingMessageId := None |}.

(** ** The persisted snapshot ([useChatStore.ts], lines 105-112) *)

Record Snapshot : Type := mkSnapshot {
  s_messages : list Message;
  s_sessionId : string;
  s_userPreferences : UserPreferences
}.

Definition partialize (state : ChatState) : Snapshot :=
  {| s_messages := messages state;
     s_sessionId := sessionId state;
     s_userPreferences := userPreferences state |}.

(** The item ['vantage-chat-storage'] of the storage medium. *)
Definition Storage : Type := option Snapshot.

(** What the [persist] middleware writes after a [set]. *)
Definition persist (state : ChatState) : Storage := Some (partialize state).

(** Modelled from the spec: the restore step of the [persist] middleware,
    which is not among the sources.  A stored snapshot is merged over the
    state the creator builds ([{ ...currentState, ...persistedState }]);
    without a snapshot the defaults are used. *)
Definition rehydrate (storage : Storage) (uuid : string) : ChatState :=
  let current := initialState uuid in
  match storage with
  | Some persisted =>
      {| messages := s_messages persisted;
         sessionId := s_sessionId persisted;
         userPreferences := s_userPreferences persisted;
         isLoading := isLoading current;
         streamingMessageId := streamingMessageId current |}
  | None => current
  end.

(** ** The backend collaborator ([types/api.ts], [services/api.ts]) *)

Module ChatRequest.

Record t : Type := mk {
  message : string;
  session_id : option string;
  user_id : string;
  enable_profiling : bool
}.

End ChatRequest.

Module ChatResponse.

Record t : Type := mk {
  response : string;
  session_id : string;
  processing_time : Z;
  tools_used : list unknown;
  performance_stats : option unknown
}.

End ChatResponse.

(** What a [catch] clause can receive: an [Error] (of which only the
    message is read) or any other value. *)
Inductive Thrown : Type :=
| ThrownError (message : string)
| ThrownOther (v : unknown).

(** How the promise returned by [postChat] settles. *)
Inductive Outcome : Type :=
| Resolved (response : ChatResponse.t)
| Rejected (e : Thrown).

(** An entry of [loc: (string | number)[]] of a FastAPI validation error. *)
Inductive LocItem : Type :=
| LocString (s : string)
| LocNumber (n : Z).

Record ValidationError : Type := mkValidationError {
  loc : list LocItem;
  msg : string;
  type : string
}.

(** [Array.prototype.join] on strings. *)
Fixpoint join (sep : string) (l : list string) : string :=
  match l with
  | [] => ""
  | [x] => x
  | x :: rest => x ++ sep ++ join sep rest
  end.

Definition locItemToString (i : LocItem) : string :=
  match i with
  | LocString s => s
  | LocNumber n => DecimalString.NilZero.string_of_int (Z.to_int n)
  end.

(** The message the response interceptor of [services/api.ts] builds for a
    status 422 whose [data.detail] is an array:
    [detail.map((err) => `${err.loc.join('.')}: ${err.msg}`).join(', ')].
    It becomes the [message] of the [ApiError] that [postChat] rejects
    with. *)
Definition validationErrorMessage (detail : list ValidationError) : string :=
  join ", "
    (map (fun err => join "." (map locItemToString (loc err)) ++ ": " ++ msg err)
         detail).

(** ** The controller ([ChatContainer.tsx], [handleSendMessage]) *)

(** [s || d] on strings: the empty string and [undefined] are falsy. *)
Definition orString (s : option string) (d : string) : string :=
  match s with
  | Some x => if String.eqb x "" then d else x
  | None => d
  end.

(** [b || false] on an optional boolean. *)
Definition orFalse (b : option bool) : bool :=
  match b with Some true => true | _ => false end.

(** [n || d] on numbers. *)
Definition orNumber (n d : Z) : Z := if Z.eqb n 0 then d else n.

(** What the suspended call keeps in its closure across the [await]. *)
Record Pending : Type := mkPending {
  agentMessageId : string;
  sentSessionId : string;
  request : ChatRequest.t;
  startTime : Z
}.

Definition userMessage (content : string) : NewMessage :=
  {| n_id := None; n_role := user; n_content := content;
     n_toolsUsed := None; n_processingTime := None;
     n_isStreaming := None; n_error := None |}.

Definition agentMessage : NewMessage :=
  {| n_id := None; n_role := agent; n_content := "";
     n_toolsUsed := None; n_processingTime := None;
     n_isStreaming := Some true; n_error := None |}.

(** The values [uuidv4()] and [Date.now()] return during the synchronous
    part of one call of [handleSendMessage], in the order of the calls. *)
Record SendEnv : Type := mkSendEnv {
  uuid1 : string;  now1 : Z;
  uuid2 : string;  now2 : Z;
  now3 : Z
}.

(** [handleSendMessage] up to [await postChat(request)] (lines 24-57).
    [sessionId0] and [userPreferences0] are the values the callback closed
    over at the last render. *)
Definition handleSendMessage_begin (sessionId0 : string)
    (userPreferences0 : UserPreferences) (content : string) (e : SendEnv)
    (st : ChatState) : ChatState * Pending :=
  let (st1, _) := addMessage (userMessage content) (uuid1 e) (now1 e) st in
  let (st2, createdAgentMessage) :=
    addMessage agentMessage (uuid2 e) (now2 e) st1 in
  let agentMessageId := id createdAgentMessage in
  let st3 := setStreamingMessageId (Some agentMessageId) st2 in
  let st4 := setLoading true st3 in
  let request :=
    ChatRequest.mk content (Some sessionId0)
      (orString (userId userPreferences0) "default_user")
      (orFalse (enableProfiling userPreferences0)) in
  (st4, mkPending agentMessageId sessionId0 request (now3 e)).

(** The patch of the [try] branch (lines 61-66). *)
Definition successPatch (response : ChatResponse.t) (startTime endTime : Z)
  : MessagePatch :=
  {| p_id := None; p_role := None;
     p_content := Some (ChatResponse.response response);
     p_timestamp := None;
     p_toolsUsed := Some (Some (ChatResponse.tools_used response));
     p_processingTime :=
       Some (Some (orNumber (ChatResponse.processing_time response)
                            (endTime - startTime)));
     p_isStreaming := Some (Some false);
     p_error := None |}.

(** [error instanceof Error ? error.message : 'An error occurred'] *)
Definition errorText (e : Thrown) : string :=
  match e with
  | ThrownError message => message
  | ThrownOther _ => "An error occurred"
  end.

(** The patch of the [catch] branch (lines 74-77). *)
Definition failurePatch (e : Thrown) : MessagePatch :=
  {| p_id := None; p_role := None; p_content := None; p_timestamp := None;
     p_toolsUsed := None; p_processingTime := None;
     p_isStreaming := Some (Some false);
     p_error := Some (Some (errorText e)) |}.

(** The [try] and [catch] bodies after the [await] has settled. *)
Definition handleSendMessage_reconcile (p : Pending) (o : Outcome)
    (endTime : Z) (st : ChatState) : ChatState :=
  match o with
  | Resolved response =>
      let st1 :=
        updateMessage (agentMessageId p)
          (successPatch response (startTime p) endTime) st in
      if negb (String.eqb (ChatResponse.session_id response) (sentSessionId p))
      then setSessionId (ChatResponse.session_id response) st1
      else st1
  | Rejected e => updateMessage (agentMessageId p) (failurePatch e) st
  end.

(** [handleSendMessage] from the moment the promise settles (lines 58-81):
    [endTime] is the second [Date.now()], read on success only. *)
Definition handleSendMessage_settle (p : Pending) (o : Outcome)
    (endTime : Z) (st : ChatState) : ChatState :=
  let st1 := handleSendMessage_reconcile p o endTime st in
  let st2 := setStreamingMessageId None st1 in
  setLoading false st2.

(** One whole exchange with nothing else running while the request is in
    flight. *)
Definition handleSendMessage (content : string) (e : SendEnv) (o : Outcome)
    (endTime : Z) (st : ChatState) : ChatState :=
  let (st1, p) :=
    handleSendMessage_begin (sessionId st) (userPreferences st) content e st in
  handleSendMessage_settle p o endTime st1.

(** ** The input component ([MessageInput.tsx], [handleSend]) *)

(** White space of [String.prototype.trim] among the code units below 256:
    TAB, LF, VT, FF, CR, SP and NBSP. *)
Definition isWhiteSpace (c : ascii) : bool :=
  let n := nat_of_ascii c in
  ((9 <=? n) && (n <=? 13) || (n =? 32) || (n =? 160))%nat.

Fixpoint trimStart (s : string) : string :=
  match s with
  | EmptyString => EmptyString
  | String c rest => if isWhiteSpace c then trimStart rest else s
  end.

Fixpoint trimEnd (s : string) : string :=
  match s with
  | EmptyString => EmptyString
  | String c rest =>
      match trimEnd rest with
      | EmptyString => if isWhiteSpace c then EmptyString
                       else String c EmptyString
      | kept => String c kept
      end
  end.

Definition trim (s : string) : string := trimEnd (trimStart s).

(** The local state of the input component that [handleSend] touches. *)
Record InputState : Type := mkInput {
  message : string;
  attachedFiles : list string
}.

(** [handleSend]: the argument it calls [onSendMessage] with, if it calls
    it, and the new local state. *)
Definition handleSend (disabled : bool) (i : InputState)
  : option string * InputState :=
  if negb (String.eqb (trim (message i)) "") && negb disabled
  then (Some (trim (message i)), mkInput "" [])
  else (None, i).

(** ** The running application: store, requests in flight, events

    JavaScript runs every handler to completion, so the application moves
    from one state to the next by whole events: the mount effect of the chat
    container, a send from the input component, the settlement of a request
    in flight, the reset button, a change of preferences, a page reload. *)

Record System : Type := mkSystem {
  store : ChatState;
  (** the suspended calls of [handleSendMessage] *)
  inflight : list Pending;
  (** every identifier [uuidv4()] has returned so far *)
  issued : list string
}.

(** [Mount] is the effect "Load initial greeting" as it runs when the chat
    container mounts: the render it belongs to has just captured the list
    of the store, so the test [messages.length === 0] is a test of the
    store's list.  ([mountEffect] below has the captured list as an
    argument of its own.) *)
Inductive Event : Type :=
| Mount (uuid : string) (now : Z)
| Send (text : string) (e : SendEnv)
| Settle (k : nat) (o : Outcome) (endTime : Z)
| Reset (uuid : string)
| Preferences (q : PreferencesPatch)
| Reload (uuid : string).

Definition initSystem (uuid : string) : System :=
  mkSystem (initialState uuid) [] [uuid].

Definition mem (u : string) (l : list string) : bool :=
  existsb (String.eqb u) l.

(** [uuidv4()] never returns an identifier it has returned before. *)
Definition fresh (u : string) (s : System) : bool := negb (mem u (issued s)).

Definition greeting : NewMessage :=
  {| n_id := None; n_role := agent;
     n_content :=
       "Hello! I'm the Vantage AI assistant. How can I help you today?";
     n_toolsUsed := None; n_processingTime := None;
     n_isStreaming := None; n_error := None |}.

Fixpoint removeNth {A : Type} (k : nat) (l : list A) : list A :=
  match l, k with
  | [], _ => []
  | _ :: rest, O => rest
  | x :: rest, S k' => x :: removeNth k' rest
  end.

(** One event.  [None]: the event cannot happen in this state (no such
    request in flight, or an identifier that [uuidv4()] cannot return). *)
Definition step (ev : Event) (s : System) : option System :=
  match ev with
  | Mount uuid now =>
      match messages (store s) with
      | [] =>
          if fresh uuid s
          then Some (mkSystem (fst (addMessage greeting uuid now (store s)))
                              (inflight s) (uuid :: issued s))
          else None
      | _ :: _ => Some s
      end
  | Send text e =>
      match fst (handleSend (isLoading (store s)) (mkInput text [])) with
      | Some content =>
          if fresh (uuid1 e) s && fresh (uuid2 e) s
             && negb (String.eqb (uuid1 e) (uuid2 e))
          then
            let (st', p) :=
              handleSendMessage_begin (sessionId (store s))
                (userPreferences (store s)) content e (store s) in
            Some (mkSystem st' (inflight s ++ [p])
                           (uuid2 e :: uuid1 e :: issued s))
          else None
      | None => Some s
      end
  | Settle k o endTime =>
      match nth_error (inflight s) k with
      | Some p =>
          Some (mkSystem (handleSendMessage_settle p o endTime (store s))
                         (removeNth k (inflight s)) (issued s))
      | None => None
      end
  | Reset uuid =>
      if fresh uuid s
      then Some (mkSystem (resetSession uuid (store s)) (inflight s)
                          (uuid :: issued s))
      else None
  | Preferences q =>
      Some (mkSystem (updateUserPreferences q (store s)) (inflight s)
                     (issued s))
  | Reload uuid =>
      Some (mkSystem (rehydrate (persist (store s)) uuid) [] (issued s))
  end.

Fixpoint run (evs : list Event) (s : System) : option System :=
  match evs with
  | [] => Some s
  | ev :: rest =>
      match step ev s with
      | Some s' => run rest s'
      | None => None
      end
  end.

(** ** Message states and the streaming invariant *)

Inductive MessageState : Type := streaming | completed | failed.

(** The state of a message; [None] for a message that is marked streaming
    and carries an error, which is none of the three. *)
Definition stateOf (m : Message) : option MessageState :=
  match isStreaming m, error m with
  | Some true, None => Some streaming
  | Some true, Some _ => None
  | _, None => Some completed
  | _, Some _ => Some failed
  end.

Definition isTerminal (m : Message) : Prop :=
  stateOf m = Some completed \/ stateOf m = Some failed.

Definition streamingNow (m : Message) : bool :=
  match isStreaming m with Some true => true | _ => false end.

(** The ids of the messages that have [isStreaming = true], in order. *)
Definition streamingIds (st : ChatState) : list string :=
  map id (filter streamingNow (messages st)).

(** At most one message is streaming, and [streamingMessageId], when set,
    is the id of that message. *)
Definition streamingInvariant (st : ChatState) : Prop :=
  (List.length (streamingIds st) <= 1)%nat /\
  forall i, streamingMessageId st = Some i -> streamingIds st = [i].

(** The same with [streamingMessageId] allowed to outlive the streaming
    flag: when set, no other message is streaming. *)
Definition streamingInvariantWeak (st : ChatState) : Prop :=
  (List.length (streamingIds st) <= 1)%nat /\
  forall i, streamingMessageId st = Some i ->
            forall j, In j (streamingIds st) -> j = i.

(** A reset or a reload does not happen while the store says a request is
    in flight. *)
Definition calm (ev : Event) (s : System) : bool :=
  match ev with
  | Reset _ | Reload _ => negb (isLoading (store s))
  | _ => true
  end.

Fixpoint runCalm (evs : list Event) (s : System) : option System :=
  match evs with
  | [] => Some s
  | ev :: rest =>
      if calm ev s
      then match step ev s with
           | Some s' => runCalm rest s'
           | None => None
           end
      else None
  end.

(** The store states a handler goes through, one per store operation, for
    the two halves of [handleSendMessage] and for each event. *)
Definition handleSendMessage_begin_states (content : string) (e : SendEnv)
    (st : ChatState) : list ChatState :=
  let st1 := fst (addMessage (userMessage content) (uuid1 e) (now1 e) st) in
  let (st2, created) := addMessage agentMessage (uuid2 e) (now2 e) st1 in
  let st3 := setStreamingMessageId (Some (id created)) st2 in
  [st1; st2; st3; setLoading true st3].

Definition handleSendMessage_settle_states (p : Pending) (o : Outcome)
    (endTime : Z) (st : ChatState) : list ChatState :=
  let patched :=
    match o with
    | Resolved response =>
        updateMessage (agentMessageId p)
          (successPatch response (startTime p) endTime) st
    | Rejected e => updateMessage (agentMessageId p) (failurePatch e) st
    end in
  let st1 := handleSendMessage_reconcile p o endTime st in
  let st2 := setStreamingMessageId None st1 in
  [patched; st1; st2; setLoading false st2].

Definition eventStates (ev : Event) (s : System) : list ChatState :=
  match ev with
  | Mount uuid now =>
      match messages (store s) with
      | [] => [fst (addMessage greeting uuid now (store s))]
      | _ :: _ => []
      end
  | Send text e =>
      match fst (handleSend (isLoading (store s)) (mkInput text [])) with
      | Some content => handleSendMessage_begin_states content e (store s)
      | None => []
      end
  | Settle k o endTime =>
      match nth_error (inflight s) k with
      | Some p => handleSendMessage_settle_states p o endTime (store s)
      | None => []
      end
  | Reset uuid => [resetSession uuid (store s)]
  | Preferences q => [updateUserPreferences q (store s)]
  | Reload uuid => [rehydrate (persist (store s)) uuid]
  end.

(** ** Sequences of [addMessage] calls *)

Record AddCall : Type := mkAddCall {
  call_message : NewMessage;
  call_uuid : string;   (* what [uuidv4()] returns, if it is called *)
  call_now : Z          (* what [Date.now()] returns *)
}.

(** The id the created message gets. *)
Definition call_id (c : AddCall) : string :=
  nullish (n_id (call_message c)) (call_uuid c).

Definition addMessages (calls : list AddCall) (st : ChatState) : ChatState :=
  fold_left
    (fun st c =>
       fst (addMessage (call_message c) (call_uuid c) (call_now c) st))
    calls st.

(** The clock does not go back: the readings are non-decreasing, from [t]. *)
Fixpoint clockMonotone (t : Z) (calls : list AddCall) : Prop :=
  match calls with
  | [] => True
  | c :: rest => t <= call_now c /\ clockMonotone (call_now c) rest
  end.

(** A generated identifier is not among the ids in use. *)
Fixpoint generatedFresh (ids : list string) (calls : list AddCall) : Prop :=
  match calls with
  | [] => True
  | c :: rest =>
      (n_id (call_message c) = None -> ~ In (call_uuid c) ids) /\
      generatedFresh (ids ++ [call_id c]) rest
  end.

(** A caller-supplied identifier is not among the ids in use. *)
Fixpoint suppliedFresh (ids : list string) (calls : list AddCall) : Prop :=
  match calls with
  | [] => True
  | c :: rest =>
      (forall i, n_id (call_message c) = Some i -> ~ In i ids) /\
      suppliedFresh (ids ++ [call_id c]) rest
  end.

Definition ids (st : ChatState) : list string := map id (messages st).

Definition timestamps (st : ChatState) : list Z :=
  map timestamp (messages st).

(** The streaming ids of a list of messages. *)
Definition streamingIdsOf (l : list Message) : list string :=
  map id (filter streamingNow l).

(** What holds between events when no reset or reload happens while a
    request is in flight: at most one request is in flight, and the
    transient fields and the streaming flags say which. *)
Definition exchangeInvariant (s : System) : Prop :=
  match inflight s with
  | [] =>
      isLoading (store s) = false /\
      streamingMessageId (store s) = None /\
      streamingIds (store s) = []
  | [p] =>
      isLoading (store s) = true /\
      streamingMessageId (store s) = Some (agentMessageId p) /\
      streamingIds (store s) = [agentMessageId p]
  | _ :: _ :: _ => False
  end.

(** What the freshness of the generated identifiers gives along every run:
    the ids in the list and the ids held by the suspended calls have all
    been issued, they are pairwise distinct, and a message a suspended call
    is going to patch is its placeholder, still streaming. *)
Definition issuedInvariant (s : System) : Prop :=
  (forall m, In m (messages (store s)) -> In (id m) (issued s)) /\
  (forall p, In p (inflight s) -> In (agentMessageId p) (issued s)) /\
  NoDup (map id (messages (store s))) /\
  NoDup (map agentMessageId (inflight s)) /\
  (forall p m, In p (inflight s) -> In m (messages (store s)) ->
               id m = agentMessageId p -> stateOf m = Some streaming).

(** Message [m] is as it was: its id has been issued, and a message of the
    list that has this id is [m] itself. *)
Definition frozen (m : Message) (s : System) : Prop :=
  In (id m) (issued s) /\
  forall m', In m' (messages (store s)) -> id m' = id m -> m' = m.

(** The caller contract along a run: no send starts while [isLoading] is
    [true]. *)
Fixpoint contractKept (evs : list Event) (s : System) : bool :=
  match evs with
  | [] => true
  | ev :: rest =>
      match ev with
      | Send _ _ => negb (isLoading (store s))
      | _ => true
      end
      && match step ev s with
         | Some s' => contractKept rest s'
         | None => true
         end
  end.

(** The effect "Load initial greeting" of the chat container
    ([ChatContainer.tsx], lines 85-92); [captured] is the list the render
    it runs for has captured. *)
Definition mountEffect (captured : list Message) (uuid : string) (now : Z)
    (st : ChatState) : ChatState :=
  match captured with
  | [] => fst (addMessage greeting uuid now st)
  | _ :: _ => st
  end.

(** ** The message list ([MessageList.tsx], lines 571-611) *)

(** What the bubble of a message shows: the error view, the "Thinking..."
    loader, or the content (the footer under an agent's content is left
    out). *)
Inductive Bubble : Type :=
| ErrorBubble (text : string)
| ThinkingBubble
| ContentBubble (text : string).

(** [message.id === streamingMessageId] *)
Definition isStreamingMessage (streamingMessageId0 : option string)
    (m : Message) : bool :=
  match streamingMessageId0 with
  | Some i => String.eqb (id m) i
  | None => false
  end.

(** [message.error ? ... : message.isStreaming && message.id ===
    streamingMessageId ? ... : ...]; an empty [error] is falsy. *)
Definition bubble (streamingMessageId0 : option string) (m : Message)
  : Bubble :=
  let otherwise :=
    if streamingNow m && isStreamingMessage streamingMessageId0 m
    then ThinkingBubble
    else ContentBubble (content m) in
  match error m with
  | Some e => if String.eqb e "" then otherwise else ErrorBubble e
  | None => otherwise
  end.

(** [messages.map(...)] with the props the chat container passes. *)
Definition renderMessages (st : ChatState) : list Bubble :=
  map (bubble (streamingMessageId st)) (messages st).

Definition isThinking (b : Bubble) : bool :=
  match b with ThinkingBubble => true | _ => false end.

(** ** More of the input component ([MessageInput.tsx]) *)

(** The [disabled] attribute of the send button:
    [disabled || !message.trim()] (line 777). *)
Definition sendButtonDisabled (disabled : bool) (i : InputState) : bool :=
  disabled || String.eqb (trim (message i)) "".

(** [handleKeyDown] (lines 660-665): whether it calls [preventDefault],
    and what [handleSend] did if it was called. *)
Definition handleKeyDown (key : string) (shiftKey : bool) (disabled : bool)
    (i : InputState) : bool * (option string * InputState) :=
  if String.eqb key "Enter" && negb shiftKey
  then (true, handleSend disabled i)
  else (false, (None, i)).

(** [l.filter((_, i) => keep(i))], the index counted from [i]. *)
Fixpoint filterIndex {A : Type} (keep : nat -> bool) (i : nat) (l : list A)
  : list A :=
  match l with
  | [] => []
  | x :: rest =>
      if keep i then x :: filterIndex keep (S i) rest
      else filterIndex keep (S i) rest
  end.

(** [removeFile] (lines 703-705). *)
Definition removeFile (index : nat) (i : InputState) : InputState :=
  mkInput (message i)
    (filterIndex (fun k => negb (Nat.eqb k index)) 0 (attachedFiles i)).

(** [handleFileSelect] (lines 696-701); [None]: [e.target.files] is
    null. *)
Definition handleFileSelect (files : option (list string)) (i : InputState)
  : InputState :=
  match files with
  | Some selected => mkInput (message i) (attachedFiles i ++ selected)
  | None => i
  end.

(** ** More of the API service ([services/api.ts]) *)

(** [data.detail] of an error response: the text of an HTTP exception or
    the list of a validation error. *)
Inductive Detail : Type :=
| DetailText (s : string)
| DetailErrors (l : list ValidationError).

(** The body of an error response, as far as the interceptor reads it, for
    the two bodies the backend sends: [detail] is a text or an array of
    validation errors, [message] is a text.  The source types the body
    [any]; a body of another shape (a [detail] array of strings, a
    [message] that is not a string) is outside this record, and nothing
    below is stated for all bodies unless the body is not read at all. *)
Record ErrorData : Type := mkErrorData {
  detail : option Detail;
  data_message : option string
}.

Module AxiosError.

Record t : Type := mk {
  (** [error.response]: the status and the body, if the server answered *)
  response : option (Z * option ErrorData);
  (** whether [error.request] is set *)
  request : bool;
  code : option string
}.

End AxiosError.

(** The [ApiError] class (lines 420-436), without [data] and
    [originalError]. *)
Module ApiError.

Record t : Type := mk {
  message : string;
  status : option Z
}.

End ApiError.

Inductive NotificationType : Type := NotifyError | NotifyWarning.

(** [data?.detail] *)
Definition detailOf (data : option ErrorData) : option Detail :=
  match data with Some d => detail d | None => None end.

(** [data?.detail || data?.message || errorMessage], as the string the
    [Error] constructor makes of it: an array of objects becomes
    ["[object Object]"] joined by commas. *)
Definition fallbackMessage (data : option ErrorData) (errorMessage : string)
  : string :=
  match detailOf data with
  | Some (DetailErrors l) => join "," (map (fun _ => "[object Object]") l)
  | Some (DetailText s) =>
      if String.eqb s ""
      then orString (match data with Some d => data_message d | None => None end)
             errorMessage
      else s
  | None =>
      orString (match data with Some d => data_message d | None => None end)
        errorMessage
  end.

(** The [switch (status)] of the response interceptor (lines 505-542). *)
Definition statusMessage (status : Z) (data : option ErrorData)
  : string * NotificationType :=
  if Z.eqb status 400
  then ("Bad request. Please check your input.", NotifyError)
  else if Z.eqb status 401
  then ("Unauthorized. Please login again.", NotifyError)
  else if Z.eqb status 403
  then ("You do not have permission to perform this action.", NotifyError)
  else if Z.eqb status 404
  then ("The requested resource was not found.", NotifyError)
  else if Z.eqb status 422
  then (match detailOf data with
        | Some (DetailErrors l) => validationErrorMessage l
        | _ => "Validation error. Please check your input."
        end, NotifyWarning)
  else if Z.eqb status 500
  then ("Internal server error. Please try again later.", NotifyError)
  else if Z.eqb status 502 || Z.eqb status 503 || Z.eqb status 504
  then ("Service temporarily unavailable. Please try again later.",
        NotifyError)
  else (fallbackMessage data "An unexpected error occurred", NotifyError).

(** The error handler of the response interceptor (lines 491-561): the
    kind of notification and the [ApiError] the promise is rejected
    with. *)
Definition responseInterceptor (error : AxiosError.t)
  : NotificationType * ApiError.t :=
  match AxiosError.response error with
  | Some (status, data) =>
      let (errorMessage, notificationType) := statusMessage status data in
      (notificationType, ApiError.mk errorMessage (Some status))
  | None =>
      let errorMessage :=
        if AxiosError.request error
        then match AxiosError.code error with
             | Some c =>
                 if String.eqb c "ECONNABORTED"
                 then "Request timeout. Please check your connection and try again."
                 else "Unable to connect to the server. Please check your internet connection."
             | None =>
                 "Unable to connect to the server. Please check your internet connection."
             end
        else "An unexpected error occurred" in
      (NotifyError, ApiError.mk errorMessage None)
  end.

(** What a request passed to [retryRequest] can throw. *)
Inductive Raised : Type :=
| RaisedApiError (e : ApiError.t)
| RaisedOther (v : unknown).

(** How one call of the request ends. *)
Inductive Attempt (T : Type) : Type :=
| Fulfilled (v : T)
| Failed (e : Raised).

Arguments Fulfilled {T} v.
Arguments Failed {T} e.

(** [error instanceof ApiError && error.status && error.status >= 400 &&
    error.status < 500] *)
Definition isClientError (e : Raised) : bool :=
  match e with
  | RaisedApiError a =>
      match ApiError.status a with
      | Some s => negb (Z.eqb s 0) && (400 <=? s) && (s <? 500)
      | None => false
      end
  | RaisedOther _ => false
  end.

(** What a call of [retryRequest] did: the value returned or the value of
    [lastError] thrown ([None]: no error was ever caught, so what is
    thrown is [undefined]), the number of calls of the request and the
    delays waited, in order. *)
Record RetryRun (T : Type) : Type := mkRetryRun {
  outcome : T + option Raised;
  calls : nat;
  delays : list Z
}.

Arguments mkRetryRun {T} outcome calls delays.
Arguments outcome {T} r.
Arguments calls {T} r.
Arguments delays {T} r.

(** The [for] loop of [retryRequest] (lines 648-665) with [remaining]
    iterations to go; [request k] is how the call number [k] of the
    request ends. *)
Fixpoint retryLoop {T : Type} (request : nat -> Attempt T)
    (maxRetries initialDelay : Z) (remaining i : nat)
    (lastError : option Raised) (waited : list Z) : RetryRun T :=
  match remaining with
  | O => mkRetryRun (inr lastError) i waited
  | S remaining' =>
      match request i with
      | Fulfilled v => mkRetryRun (inl v) (S i) waited
      | Failed e =>
          if isClientError e
          then mkRetryRun (inr (Some e)) (S i) waited
          else
            let waited' :=
              if Z.of_nat i <? maxRetries - 1
              then (waited ++ [initialDelay * 2 ^ Z.of_nat i])%list
              else waited in
            retryLoop request maxRetries initialDelay remaining' (S i)
              (Some e) waited'
      end
  end.

(** [retryRequest] (lines 641-668), for an integer [maxRetries]. *)
Definition retryRequest {T : Type} (request : nat -> Attempt T)
    (maxRetries initialDelay : Z) : RetryRun T :=
  retryLoop request maxRetries initialDelay (Z.to_nat maxRetries) 0 None [].

(** [retryRequest] throws [undefined]: no error was ever caught, or the
    error caught last is [undefined] itself. *)
Definition throwsUndefined {T : Type} (r : RetryRun T) : Prop :=
  outcome r = inr None \/ outcome r = inr (Some (RaisedOther JsUndefined)).

(** ** More invariants of the running application *)

(** The ids the suspended calls are going to patch. *)
Definition inflightIds (s : System) : list string :=
  map agentMessageId (inflight s).

(** Message [m] is out of the reach of every suspended call, and a message
    of the list that has its id is [m] itself. *)
Definition outOfReach (m : Message) (s : System) : Prop :=
  In (id m) (issued s) /\
  ~ In (id m) (inflightIds s) /\
  forall m', In m' (messages (store s)) -> id m' = id m -> m' = m.

(** The id [i] has been issued and no message of the list has it. *)
Definition goneId (i : string) (s : System) : Prop :=
  In i (issued s) /\ forall m, In m (messages (store s)) -> id m <> i.

(** A string that does not begin with white space. *)
Definition noLeadingSpace (s : string) : Prop :=
  match s with
  | EmptyString => True
  | String c _ => isWhiteSpace c = false
  end.

(** A text as the input component hands it over: trimmed and not empty. *)
Definition cleanText (c : string) : Prop := c <> "" /\ trim c = c.

(** What every send leaves behind: user messages with clean text that no
    suspended call can reach, and requests with clean text, a user id and
    the session id of the closure. *)
Definition sendInvariant (s : System) : Prop :=
  (forall m, In m (messages (store s)) -> role m = user ->
             cleanText (content m) /\ In (id m) (issued s) /\
             ~ In (id m) (inflightIds s)) /\
  (forall p, In p (inflight s) ->
             cleanText (ChatRequest.message (request p)) /\
             ChatRequest.user_id (request p) <> "" /\
             ChatRequest.session_id (request p) = Some (sentSessionId p) /\
             In (agentMessageId p) (issued s)).

(** The patch a settlement applies. *)
Definition settlePatch (p : Pending) (o : Outcome) (endTime : Z)
  : MessagePatch :=
  match o with
  | Resolved r => successPatch r (startTime p) endTime
  | Rejected e => failurePatch e
  end.

Fixpoint sumZ (l : list Z) : Z :=
  match l with
  | [] => 0
  | x :: rest => x + sumZ rest
  end.

(** ** Sample data *)

Definition sampleThread : ChatState :=
  {| messages :=
       [ mkMessage "x" user "one" 10 None None None None;
         mkMessage "y" agent "" 11 None None (Some true) None;
         mkMessage "x" agent "two" 12 None None None None ];
     sessionId := "s1";
     userPreferences := defaultPreferences;
     isLoading := true;
     streamingMessageId := Some "y" |}.

Definition sampleResponse : ChatResponse.t :=
  ChatResponse.mk "Hi there" "s2" 120 [] None.

(** A send, a reset while the request is in flight, a second send, the
    first request settling, a third send. *)
Definition overlappingRun : list Event :=
  [ Send "a" (mkSendEnv "u1" 1 "u2" 2 3);
    Reset "r1";
    Send "b" (mkSendEnv "u3" 4 "u4" 5 6);
    Settle 0 (Resolved sampleResponse) 7;
    Send "c" (mkSendEnv "u5" 8 "u6" 9 10) ].

(** Two exchanges one after the other, the second one failing. *)
Definition orderlyRun : list Event :=
  [ Mount "g0" 0;
    Send "a" (mkSendEnv "u1" 1 "u2" 2 3);
    Settle 0 (Resolved sampleResponse) 7;
    Send "b" (mkSendEnv "u3" 8 "u4" 9 10);
    Settle 0 (Rejected (ThrownError "Request timeout.")) 11 ].

(** * Properties *)

(** ** Generated identifiers *)

Lemma mem_In (u : string) (l : list string) : mem u l = true <-> In u l.
Proof.
  unfold mem. rewrite existsb_exists. split.
  - intros (x & Hx & E). apply String.eqb_eq in E. subst x. exact Hx.
  - intros H. exists u. split; [exact H | apply String.eqb_refl].
Qed.

Lemma fresh_not_issued (u : string) (s : System) :
  fresh u s = true -> ~ In u (issued s).
Proof.
  unfold fresh. intros H Hin. apply mem_In in Hin. rewrite Hin in H.
  discriminate H.
Qed.

(** ** The store operations *)

Lemma map_id_when_unmatched (i : string) (updates : MessagePatch)
    (l : list Message) :
  (forall m, In m l -> id m <> i) ->
  map (fun msg => if String.eqb (id msg) i then mergeMessage msg updates
                  else msg) l = l.
Proof.
  induction l as [| m l IH]; intros H; simpl.
  - reflexivity.
  - destruct (String.eqb_spec (id m) i) as [E | _].
    + exfalso. apply (H m); [left; reflexivity | exact E].
    + f_equal. apply IH. intros m' Hm'. apply H. right. exact Hm'.
Qed.

(** C7. [updateMessage] with an id that no message has returns (it is a
    total function: it does not throw) a state whose [messages], and every
    other field, are those of the state it was given: no entry is created
    and none is modified. *)
Theorem updateMessage_unknown_id (i : string) (updates : MessagePatch)
    (st : ChatState) :
  (forall m, In m (messages st) -> id m <> i) ->
  messages (updateMessage i updates st) = messages st /\
  updateMessage i updates st = st.
Proof.
  intros H. unfold updateMessage, set_messages. simpl.
  rewrite (map_id_when_unmatched i updates (messages st) H).
  split; [reflexivity | destruct st; reflexivity].
Qed.

Lemma updateMessage_unknown_id_witness :
  let st := fst (addMessage (userMessage "Hi") "m1" 5 (initialState "s0")) in
  let updates := failurePatch (ThrownError "boom") in
  (forall m, In m (messages st) -> id m <> "zz") /\
  messages (updateMessage "zz" updates st) = messages st /\
  updateMessage "zz" updates st = st.
Proof.
  assert (H : forall m,
             In m (messages (fst (addMessage (userMessage "Hi") "m1" 5
                                     (initialState "s0")))) ->
             id m <> "zz").
  { simpl. intros m [E | []]. subst m. simpl. discriminate. }
  split; [exact H |].
  exact (updateMessage_unknown_id "zz" (failurePatch (ThrownError "boom"))
           _ H).
Defined.

(** C10. [updateMessage] keeps the length and the order of the list:
    position by position, a message whose id is not the given one is
    unchanged and a message whose id is the given one (each of them, if
    several have it) receives the patch: every field whose key the patch
    has takes the patch's value, every other field keeps the message's.
    The other fields of the state are unchanged. *)
Theorem updateMessage_frame (i : string) (updates : MessagePatch)
    (st : ChatState) :
  let st' := updateMessage i updates st in
  let merged := fun m : Message =>
    {| id := match p_id updates with Some v => v | None => id m end;
       role := match p_role updates with Some v => v | None => role m end;
       content :=
         match p_content updates with Some v => v | None => content m end;
       timestamp :=
         match p_timestamp updates with
         | Some v => v
         | None => timestamp m
         end;
       toolsUsed :=
         match p_toolsUsed updates with
         | Some v => v
         | None => toolsUsed m
         end;
       processingTime :=
         match p_processingTime updates with
         | Some v => v
         | None => processingTime m
         end;
       isStreaming :=
         match p_isStreaming updates with
         | Some v => v
         | None => isStreaming m
         end;
       error := match p_error updates with Some v => v | None => error m end
    |} in
  List.length (messages st') = List.length (messages st) /\
  (forall k,
     nth_error (messages st') k =
     option_map (fun m => if String.eqb (id m) i then merged m else m)
       (nth_error (messages st) k)) /\
  (forall k m, nth_error (messages st) k = Some m -> id m <> i ->
               nth_error (messages st') k = Some m) /\
  (forall k m, nth_error (messages st) k = Some m -> id m = i ->
               nth_error (messages st') k = Some (merged m)) /\
  sessionId st' = sessionId st /\
  userPreferences st' = userPreferences st /\
  isLoading st' = isLoading st /\
  streamingMessageId st' = streamingMessageId st.
Proof.
  intros st' merged.
  assert (Hm : forall m, mergeMessage m updates = merged m).
  { intros m. subst merged. unfold mergeMessage, spread. reflexivity. }
  subst st'. unfold updateMessage, set_messages. cbn [messages sessionId
    userPreferences isLoading streamingMessageId].
  split; [apply length_map |].
  split; [| split; [| split; [| repeat split]]].
  - intros k. rewrite nth_error_map.
    destruct (nth_error (messages st) k) as [m |]; [| reflexivity].
    simpl. rewrite Hm. reflexivity.
  - intros k m Hk Hne. rewrite nth_error_map, Hk. simpl.
    destruct (String.eqb_spec (id m) i); [contradiction | reflexivity].
  - intros k m Hk He. rewrite nth_error_map, Hk. simpl.
    destruct (String.eqb_spec (id m) i); [| contradiction].
    rewrite Hm. reflexivity.
Qed.

Lemma updateMessage_frame_witness :
  let updates := failurePatch (ThrownError "boom") in
  let st' := updateMessage "x" updates sampleThread in
  List.length (messages st') = 3%nat /\
  nth_error (messages st') 0 =
    Some (mkMessage "x" user "one" 10 None None (Some false)
            (Some "boom")) /\
  nth_error (messages st') 1 =
    Some (mkMessage "y" agent "" 11 None None (Some true) None) /\
  nth_error (messages st') 2 =
    Some (mkMessage "x" agent "two" 12 None None (Some false)
            (Some "boom")).
Proof.
  pose proof (updateMessage_frame "x" (failurePatch (ThrownError "boom"))
                sampleThread) as H.
  destruct H as (Hlen & _ & Hother & Hsame & _).
  split; [exact Hlen |].
  split;
    [exact (Hsame 0%nat (mkMessage "x" user "one" 10 None None None None)
              eq_refl eq_refl) |].
  split; [apply (Hother 1%nat); [reflexivity | discriminate] |].
  exact (Hsame 2%nat (mkMessage "x" agent "two" 12 None None None None)
           eq_refl eq_refl).
Defined.

(** ** The scenarios of the unit tests *)

(** Scenario A: one message added to an empty list. *)
Example scenario_add :
  let st := fst (addMessage (userMessage "Hi") "g1" 100 (initialState "s0"))
  in
  messages st = [mkMessage "g1" user "Hi" 100 None None None None].
Proof. reflexivity. Qed.

(** Scenario B, the streaming-update regression test: a placeholder added
    with the id ['x'], then patched. *)
Example scenario_update :
  let placeholder :=
    mkNewMessage (Some "x") agent "" None None (Some true) None in
  let updates :=
    mkPatch None None (Some "hello") None None None (Some (Some false)) None
  in
  let st := fst (addMessage placeholder "g1" 100 (initialState "s0")) in
  messages (updateMessage "x" updates st) =
  [mkMessage "x" agent "hello" 100 None None (Some false) None].
Proof. reflexivity. Qed.

(** The preferences test: a patch with all three keys. *)
Example scenario_preferences :
  userPreferences
    (updateUserPreferences
       (mkPrefsPatch (Some (Some dark)) (Some (Some true))
          (Some (Some "test-user-123")))
       (initialState "s0")) =
  mkPrefs (Some dark) (Some true) (Some "test-user-123").
Proof. reflexivity. Qed.

(** ** Persistence *)

(** C5. Restoring what [persist] wrote gives back [messages], [sessionId]
    and [userPreferences] as they were; [isLoading] and
    [streamingMessageId] are not in the snapshot (it is the same whatever
    their values) and are [false] and none after the restore. *)
Theorem persist_rehydrate_roundtrip (st : ChatState) (uuid : string) :
  let st' := rehydrate (persist st) uuid in
  messages st' = messages st /\
  sessionId st' = sessionId st /\
  userPreferences st' = userPreferences st /\
  isLoading st' = false /\
  streamingMessageId st' = None /\
  (forall loading i,
     persist (setLoading loading (setStreamingMessageId i st)) = persist st).
Proof.
  simpl. repeat split.
Qed.

Lemma persist_rehydrate_roundtrip_witness :
  let st' := rehydrate (persist sampleThread) "fresh" in
  messages st' = messages sampleThread /\
  sessionId st' = "s1" /\
  userPreferences st' = defaultPreferences /\
  isLoading st' = false /\
  streamingMessageId st' = None.
Proof.
  pose proof (persist_rehydrate_roundtrip sampleThread "fresh") as H.
  destruct H as (H1 & H2 & H3 & H4 & H5 & _).
  repeat split; assumption.
Defined.

(** Without a snapshot the defaults are used. *)
Lemma rehydrate_without_snapshot (uuid : string) :
  rehydrate None uuid = initialState uuid.
Proof. reflexivity. Qed.

(** ** Reset *)




(** ** One exchange *)

Lemma nth_error_map_snoc2 {A B : Type} (f : A -> B) (l : list A) (a b : A) :
  nth_error (map f (l ++ [a; b])) (List.length l + 1) = Some (f b).
Proof.
  rewrite nth_error_map, nth_error_app2 by lia.
  replace (List.length l + 1 - List.length l)%nat with 1%nat by lia.
  reflexivity.
Qed.

(** The request carries the text, the session id and the preferences the
    callback closed over, and the placeholder's id is the second identifier
    drawn. *)
Lemma handleSendMessage_begin_pending (sid : string) (u : UserPreferences)
    (content : string) (e : SendEnv) (st : ChatState) :
  snd (handleSendMessage_begin sid u content e st) =
  mkPending (uuid2 e) sid
    (ChatRequest.mk content (Some sid) (orString (userId u) "default_user")
       (orFalse (enableProfiling u)))
    (now3 e).
Proof. reflexivity. Qed.

(** The store when the call suspends: both messages appended, the
    placeholder named by [streamingMessageId], [isLoading] set. *)
Lemma handleSendMessage_begin_store (sid : string) (u : UserPreferences)
    (content : string) (e : SendEnv) (st : ChatState) :
  fst (handleSendMessage_begin sid u content e st) =
  {| messages :=
       messages st ++
       [ mkMessage (uuid1 e) user content (now1 e) None None None None;
         mkMessage (uuid2 e) agent "" (now2 e) None None (Some true) None ];
     sessionId := sessionId st;
     userPreferences := userPreferences st;
     isLoading := true;
     streamingMessageId := Some (uuid2 e) |}.
Proof.
  unfold handleSendMessage_begin, addMessage, set_messages. simpl.
  rewrite <- app_assoc. reflexivity.
Qed.

(** Whatever happened in between, the settlement clears both transient
    fields. *)
Lemma handleSendMessage_settle_idle (p : Pending) (o : Outcome) (endTime : Z)
    (st : ChatState) :
  isLoading (handleSendMessage_settle p o endTime st) = false /\
  streamingMessageId (handleSendMessage_settle p o endTime st) = None.
Proof. split; reflexivity. Qed.

(** On success, every message that has the placeholder's id when the
    response arrives is patched, whatever else happened to the store while
    the request was in flight. *)
Lemma handleSendMessage_settle_success (p : Pending) (r : ChatResponse.t)
    (endTime : Z) (st : ChatState) (k : nat) (m : Message) :
  nth_error (messages st) k = Some m ->
  id m = agentMessageId p ->
  nth_error (messages (handleSendMessage_settle p (Resolved r) endTime st)) k
  = Some {| id := id m; role := role m;
            content := ChatResponse.response r;
            timestamp := timestamp m;
            toolsUsed := Some (ChatResponse.tools_used r);
            processingTime :=
              Some (orNumber (ChatResponse.processing_time r)
                             (endTime - startTime p));
            isStreaming := Some false;
            error := error m |}.
Proof.
  intros Hk Hid.
  unfold handleSendMessage_settle, handleSendMessage_reconcile.
  destruct (negb _); simpl; rewrite nth_error_map, Hk; simpl;
    destruct (String.eqb_spec (id m) (agentMessageId p));
    try contradiction; reflexivity.
Qed.

(** With nothing else running while the request is in flight, the
    settlement finds the store as the send left it. *)
Lemma handleSendMessage_alone (text : string) (e : SendEnv) (o : Outcome)
    (endTime : Z) (st : ChatState) :
  handleSendMessage text e o endTime st =
  handleSendMessage_settle
    (snd (handleSendMessage_begin (sessionId st) (userPreferences st) text e
            st))
    o endTime
    (fst (handleSendMessage_begin (sessionId st) (userPreferences st) text e
            st)).
Proof.
  unfold handleSendMessage.
  destruct (handleSendMessage_begin _ _ text e st). reflexivity.
Qed.

(** C2, as the code has it.  A send leaves the placeholder at the end of
    the list and suspends; [later] is the store when the response arrives,
    whatever has happened to it in between.  Every message that then has
    the placeholder's id (the placeholder, unless a reset has removed it)
    gets the response text as content, [isStreaming = false], the
    response's [tools_used], and as [processingTime] the response's
    [processing_time] when that is not zero, the time measured around the
    call otherwise; every other message is left alone and none is added.
    When the returned session id differs from the one sent the store's
    [sessionId] becomes the returned one; otherwise it is left alone. *)
Theorem handleSendMessage_success (sid : string) (prefs : UserPreferences)
    (text : string) (e : SendEnv) (r : ChatResponse.t) (endTime : Z)
    (st later : ChatState) :
  let sent := handleSendMessage_begin sid prefs text e st in
  let p := snd sent in
  let st' := handleSendMessage_settle p (Resolved r) endTime later in
  nth_error (messages (fst sent)) (List.length (messages st) + 1) =
    Some (mkMessage (uuid2 e) agent "" (now2 e) None None (Some true) None)
  /\ agentMessageId p = uuid2 e
  /\ ChatRequest.session_id (request p) = Some sid
  /\ (forall k m,
        nth_error (messages later) k = Some m -> id m = uuid2 e ->
        exists m',
          nth_error (messages st') k = Some m' /\
          content m' = ChatResponse.response r /\
          isStreaming m' = Some false /\
          toolsUsed m' = Some (ChatResponse.tools_used r) /\
          (ChatResponse.processing_time r <> 0 ->
           processingTime m' = Some (ChatResponse.processing_time r)) /\
          (ChatResponse.processing_time r = 0 ->
           processingTime m' = Some (endTime - now3 e)) /\
          id m' = id m /\ role m' = role m /\
          timestamp m' = timestamp m /\ error m' = error m)
  /\ (forall k m,
        nth_error (messages later) k = Some m -> id m <> uuid2 e ->
        nth_error (messages st') k = Some m)
  /\ List.length (messages st') = List.length (messages later)
  /\ (ChatResponse.session_id r <> sid ->
      sessionId st' = ChatResponse.session_id r)
  /\ (ChatResponse.session_id r = sid -> sessionId st' = sessionId later)
  /\ isLoading st' = false
  /\ streamingMessageId st' = None.
Proof.
  intros sent p st'.
  pose proof (handleSendMessage_begin_store sid prefs text e st) as Hs.
  pose proof (handleSendMessage_begin_pending sid prefs text e st) as Hp.
  fold sent in Hs, Hp. fold p in Hp.
  assert (Hid : agentMessageId p = uuid2 e) by (rewrite Hp; reflexivity).
  assert (Hstart : startTime p = now3 e) by (rewrite Hp; reflexivity).
  assert (Hsent : sentSessionId p = sid) by (rewrite Hp; reflexivity).
  assert (Hmsgs :
    messages st' =
    map (fun msg => if String.eqb (id msg) (uuid2 e)
                    then mergeMessage msg (successPatch r (now3 e) endTime)
                    else msg) (messages later)).
  { subst st'. unfold handleSendMessage_settle, handleSendMessage_reconcile.
    rewrite Hid, Hstart. destruct (negb _); reflexivity. }
  assert (Hsid :
    sessionId st' =
    if String.eqb (ChatResponse.session_id r) sid
    then sessionId later else ChatResponse.session_id r).
  { subst st'. unfold handleSendMessage_settle, handleSendMessage_reconcile.
    rewrite Hsent. destruct (String.eqb _ _); reflexivity. }
  split.
  { rewrite Hs. cbn [messages]. rewrite nth_error_app2 by lia.
    replace (List.length (messages st) + 1 - List.length (messages st))%nat
      with 1%nat by lia.
    reflexivity. }
  split; [exact Hid |].
  split; [rewrite Hp; reflexivity |].
  split.
  { intros k m Hk Hm. rewrite Hmsgs, nth_error_map, Hk. cbn [option_map].
    destruct (String.eqb_spec (id m) (uuid2 e)); [| contradiction].
    eexists. split; [reflexivity |]. cbn.
    repeat (split; [reflexivity |]).
    split; [| split; [| repeat split]].
    - intros Hnz. unfold orNumber.
      destruct (Z.eqb_spec (ChatResponse.processing_time r) 0);
        [contradiction | reflexivity].
    - intros Hz. unfold orNumber. rewrite Hz. reflexivity. }
  split.
  { intros k m Hk Hm. rewrite Hmsgs, nth_error_map, Hk. cbn [option_map].
    destruct (String.eqb_spec (id m) (uuid2 e)); [contradiction |].
    reflexivity. }
  split; [rewrite Hmsgs; apply length_map |].
  split.
  { intros Hne. rewrite Hsid.
    destruct (String.eqb_spec (ChatResponse.session_id r) sid);
      [contradiction | reflexivity]. }
  split.
  { intros He. rewrite Hsid.
    destruct (String.eqb_spec (ChatResponse.session_id r) sid);
      [reflexivity | contradiction]. }
  split; reflexivity.
Qed.

(** Scenario C of the specification, through the theorem. *)
Lemma handleSendMessage_success_witness :
  let r := ChatResponse.mk "Hi there" "s2" 120 [] None in
  let st' :=
    handleSendMessage "Hello" (mkSendEnv "u1" 1000 "u2" 1001 1002)
      (Resolved r) 1300 (initialState "s1") in
  exists m,
    nth_error (messages st') 1 = Some m /\
    content m = "Hi there" /\ isStreaming m = Some false /\
    toolsUsed m = Some [] /\ processingTime m = Some 120 /\
    sessionId st' = "s2".
Proof.
  pose proof (handleSendMessage_success "s1" defaultPreferences "Hello"
                (mkSendEnv "u1" 1000 "u2" 1001 1002)
                (ChatResponse.mk "Hi there" "s2" 120 [] None) 1300
                (initialState "s1")
                (fst (handleSendMessage_begin "s1" defaultPreferences
                        "Hello" (mkSendEnv "u1" 1000 "u2" 1001 1002)
                        (initialState "s1")))) as H.
  cbv zeta in H.
  destruct H as (Hplace & _ & _ & Hpatch & _ & _ & Hsid & _).
  destruct (Hpatch 1%nat _ Hplace eq_refl)
    as (m & Hm & Hc & Hs & Ht & Hp & _).
  exists m. split; [exact Hm |].
  split; [exact Hc |]. split; [exact Hs |]. split; [exact Ht |].
  split; [apply Hp; simpl; lia | apply Hsid; simpl; discriminate].
Defined.

(** C2 as the specification words it fails: a response whose
    [processing_time] is [0] leaves the time measured by the client in
    [processingTime], not the response's value. *)
Lemma handleSendMessage_processingTime_counterexample :
  let r := ChatResponse.mk "Hi there" "s2" 0 [] None in
  let st' :=
    handleSendMessage "Hello" (mkSendEnv "u1" 1000 "u2" 1001 1002)
      (Resolved r) 1252 (initialState "s1") in
  exists m,
    nth_error (messages st') 1 = Some m /\
    id m = "u2" /\ role m = agent /\
    processingTime m = Some 250 /\
    processingTime m <> Some (ChatResponse.processing_time r).
Proof.
  simpl. eexists. split; [reflexivity |].
  simpl. repeat split. discriminate.
Qed.

(** And a reset while the request is in flight removes the placeholder:
    the response then patches no message at all. *)
Example response_after_reset_patches_nothing :
  exists s,
    run [ Send "Hello" (mkSendEnv "u1" 1000 "u2" 1001 1002);
          Reset "r1";
          Settle 0 (Resolved sampleResponse) 1300 ] (initSystem "s1")
      = Some s /\
    messages (store s) = [] /\ inflight s = [].
Proof. eexists. repeat split. Qed.

(** The failure branch.  [later] is the store when the call throws.
    Every message that then has the placeholder's id gets
    [isStreaming = false] and as [error] the message of the thrown
    [Error], or ['An error occurred'] when the thrown value is not an
    [Error]; its content and every other field stay as they are, so the
    placeholder's content is still the empty string.  The text is not
    empty whenever the thrown [Error] has a non-empty message.  Whatever
    the outcome, [streamingMessageId] is none and [isLoading] is [false]
    afterwards. *)
Lemma handleSendMessage_failure (sid : string) (prefs : UserPreferences)
    (text : string) (e : SendEnv) (err : Thrown) (endTime : Z)
    (st later : ChatState) :
  let sent := handleSendMessage_begin sid prefs text e st in
  let p := snd sent in
  let st' := handleSendMessage_settle p (Rejected err) endTime later in
  (forall k m,
     nth_error (messages later) k = Some m -> id m = uuid2 e ->
     exists m',
       nth_error (messages st') k = Some m' /\
       isStreaming m' = Some false /\
       error m' = Some (errorText err) /\
       content m' = content m /\
       toolsUsed m' = toolsUsed m /\
       processingTime m' = processingTime m /\
       id m' = id m /\ role m' = role m /\ timestamp m' = timestamp m)
  /\ (forall k m,
        nth_error (messages later) k = Some m -> id m <> uuid2 e ->
        nth_error (messages st') k = Some m)
  /\ List.length (messages st') = List.length (messages later)
  /\ sessionId st' = sessionId later
  /\ ((forall message, err = ThrownError message -> message <> "") ->
      errorText err <> "")
  /\ (forall o,
        isLoading (handleSendMessage_settle p o endTime later) = false /\
        streamingMessageId (handleSendMessage_settle p o endTime later)
        = None).
Proof.
  intros sent p st'.
  pose proof (handleSendMessage_begin_pending sid prefs text e st) as Hp.
  fold sent in Hp. fold p in Hp.
  assert (Hid : agentMessageId p = uuid2 e) by (rewrite Hp; reflexivity).
  assert (Hmsgs :
    messages st' =
    map (fun msg => if String.eqb (id msg) (uuid2 e)
                    then mergeMessage msg (failurePatch err) else msg)
        (messages later)).
  { subst st'. unfold handleSendMessage_settle, handleSendMessage_reconcile.
    rewrite Hid. reflexivity. }
  split.
  { intros k m Hk Hm. rewrite Hmsgs, nth_error_map, Hk. cbn [option_map].
    destruct (String.eqb_spec (id m) (uuid2 e)); [| contradiction].
    eexists. split; [reflexivity |]. cbn. repeat split. }
  split.
  { intros k m Hk Hm. rewrite Hmsgs, nth_error_map, Hk. cbn [option_map].
    destruct (String.eqb_spec (id m) (uuid2 e)); [contradiction |].
    reflexivity. }
  split; [rewrite Hmsgs; apply length_map |].
  split; [reflexivity |].
  split.
  { intros Hmsg. destruct err as [message | v]; simpl.
    - apply Hmsg. reflexivity.
    - discriminate. }
  intros o. apply handleSendMessage_settle_idle.
Qed.

(** Scenario D of the specification, through the lemma. *)
Example scenario_failure :
  let err := ThrownError "Internal server error. Please try again later." in
  let st' :=
    handleSendMessage "Hello" (mkSendEnv "u1" 1000 "u2" 1001 1002)
      (Rejected err) 1300 (initialState "s1") in
  nth_error (messages st') 1 =
    Some (mkMessage "u2" agent "" 1001 None None (Some false)
            (Some "Internal server error. Please try again later.")) /\
  isLoading st' = false /\ streamingMessageId st' = None.
Proof. repeat split. Qed.

(** For a status 422 whose [detail] is the empty array, the interceptor
    rejects with an [ApiError] whose message is the empty string. *)
Lemma validationErrorMessage_empty : validationErrorMessage [] = "".
Proof. reflexivity. Qed.

(** C3.  The code at the input on which it fails the claim: the backend
    call throws an [Error] whose message is empty, as the interceptor's
    [ApiError] is for a 422 answer with an empty [detail] array.  The
    placeholder ends with [isStreaming = false] and the empty string as
    [error], where the claim has a non-empty text; the list then shows an
    empty content bubble and no error. *)
Lemma handleSendMessage_empty_error :
  let err := ThrownError (validationErrorMessage []) in
  let st' :=
    handleSendMessage "Hello" (mkSendEnv "u1" 1000 "u2" 1001 1002)
      (Rejected err) 1300 (initialState "s1") in
  nth_error (messages st') 1 =
    Some (mkMessage "u2" agent "" 1001 None None (Some false) (Some "")) /\
  nth_error (renderMessages st') 1 = Some (ContentBubble "") /\
  errorText (ThrownOther JsNull) = "An error occurred".
Proof. repeat split. Qed.

(** ** The guard on empty input *)

(** [handleSend] calls the controller only when the input is enabled, and
    then with the trimmed text, which is not empty. *)
Lemma handleSend_calls (disabled : bool) (i : InputState) (c : string) :
  fst (handleSend disabled i) = Some c ->
  c = trim (message i) /\ c <> "" /\ disabled = false.
Proof.
  unfold handleSend.
  destruct (String.eqb_spec (trim (message i)) "") as [E | E];
    destruct disabled; simpl; try discriminate.
  intros H. injection H as <-. repeat split. exact E.
Qed.

(** C8.  The send path starts in the input component, the only caller of
    the controller: for a text that is empty after trimming, [handleSend]
    does not call the controller and leaves its own state alone, so the
    send event changes nothing: the store is the same (no user message, no
    placeholder, no error message), no store operation runs and no request
    is added to those in flight. *)
Theorem handleSend_blank (text : string) (files : list string)
    (disabled : bool) (e : SendEnv) (s : System) :
  trim text = "" ->
  handleSend disabled (mkInput text files) = (None, mkInput text files) /\
  step (Send text e) s = Some s /\
  eventStates (Send text e) s = [].
Proof.
  intros H.
  assert (Hs : forall d fs,
             handleSend d (mkInput text fs) = (None, mkInput text fs)).
  { intros d fs. unfold handleSend. simpl. rewrite H. reflexivity. }
  split; [apply Hs |].
  unfold step, eventStates. rewrite Hs. simpl. split; reflexivity.
Qed.

Lemma handleSend_blank_witness :
  let blank := String (ascii_of_nat 32) (String (ascii_of_nat 9)
                 (String (ascii_of_nat 10) "")) in
  let e := mkSendEnv "u1" 1000 "u2" 1001 1002 in
  trim blank = "" /\
  handleSend false (mkInput blank []) = (None, mkInput blank []) /\
  step (Send blank e) (initSystem "s1") = Some (initSystem "s1") /\
  eventStates (Send blank e) (initSystem "s1") = [].
Proof.
  split; [reflexivity |].
  apply (handleSend_blank
           (String (ascii_of_nat 32) (String (ascii_of_nat 9)
              (String (ascii_of_nat 10) "")))
           [] false (mkSendEnv "u1" 1000 "u2" 1001 1002) (initSystem "s1")).
  reflexivity.
Defined.

(** ** Identity and order of the messages [addMessage] creates *)

Lemma NoDup_snoc {A : Type} (l : list A) (x : A) :
  NoDup l -> ~ In x l -> NoDup (l ++ [x]).
Proof.
  induction l as [| a l IH]; simpl; intros Hnd Hx.
  - constructor; [intros [] | constructor].
  - inversion Hnd as [| a' l' Ha Hl]; subst. constructor.
    + rewrite in_app_iff. simpl. intros [Hin | [E | []]].
      * exact (Ha Hin).
      * apply Hx. left. symmetry. exact E.
    + apply IH; [exact Hl | intros Hin; apply Hx; right; exact Hin].
Qed.

Lemma Sorted_snoc (l : list Z) (t : Z) :
  Sorted Z.le l -> Forall (fun x => x <= t) l -> Sorted Z.le (l ++ [t]).
Proof.
  induction l as [| a l IH]; simpl; intros Hs Hb.
  - repeat constructor.
  - inversion Hs as [| a' l' Hl Hhd]; subst.
    inversion Hb as [| a' l' Hat Hbl]; subst.
    constructor; [apply IH; assumption |].
    destruct l as [| b l]; simpl; constructor.
    + exact Hat.
    + inversion Hhd; assumption.
Qed.

Lemma addMessage_ids (message : NewMessage) (uuid : string) (now : Z)
    (st : ChatState) :
  ids (fst (addMessage message uuid now st)) =
  (ids st ++ [nullish (n_id message) uuid])%list.
Proof. unfold ids. simpl. rewrite map_app. reflexivity. Qed.

Lemma addMessage_timestamps (message : NewMessage) (uuid : string) (now : Z)
    (st : ChatState) :
  timestamps (fst (addMessage message uuid now st)) = (timestamps st ++ [now])%list.
Proof. unfold timestamps. simpl. rewrite map_app. reflexivity. Qed.

(** [addMessage] only appends, and returns the message it appended. *)
Lemma addMessage_appends (message : NewMessage) (uuid : string) (now : Z)
    (st : ChatState) :
  messages (fst (addMessage message uuid now st)) =
  (messages st ++ [snd (addMessage message uuid now st)])%list.
Proof. reflexivity. Qed.

(** C4, as the code has it.  Along any sequence of [addMessage] calls the
    ids stay pairwise distinct provided that an identifier the caller
    supplies is not in use already (the store does not check it) and that a
    generated one is fresh; the timestamps are non-decreasing in insertion
    order, the clock not going back. *)
Theorem addMessages_unique_ordered (calls : list AddCall) :
  forall (st : ChatState) (t : Z),
  NoDup (ids st) ->
  Sorted Z.le (timestamps st) ->
  Forall (fun x => x <= t) (timestamps st) ->
  clockMonotone t calls ->
  generatedFresh (ids st) calls ->
  suppliedFresh (ids st) calls ->
  NoDup (ids (addMessages calls st)) /\
  Sorted Z.le (timestamps (addMessages calls st)).
Proof.
  induction calls as [| c calls IH]; intros st t Hnd Hs Hb Hclock Hgen Hsup.
  - split; assumption.
  - simpl in Hclock, Hgen, Hsup.
    destruct Hclock as [Htc Hclock]. destruct Hgen as [Hg Hgen].
    destruct Hsup as [Hsu Hsup].
    change (addMessages (c :: calls) st) with
      (addMessages calls
         (fst (addMessage (call_message c) (call_uuid c) (call_now c) st))).
    apply (IH _ (call_now c)).
    + rewrite addMessage_ids. apply NoDup_snoc; [exact Hnd |].
      unfold call_id in *. destruct (n_id (call_message c)) as [i |]; simpl.
      * apply Hsu. reflexivity.
      * apply Hg. reflexivity.
    + rewrite addMessage_timestamps. apply Sorted_snoc; [exact Hs |].
      eapply Forall_impl; [| exact Hb]. simpl. intros x Hx. lia.
    + rewrite addMessage_timestamps. apply Forall_app. split.
      * eapply Forall_impl; [| exact Hb]. simpl. intros x Hx. lia.
      * repeat constructor. lia.
    + exact Hclock.
    + rewrite addMessage_ids. exact Hgen.
    + rewrite addMessage_ids. exact Hsup.
Qed.

Lemma addMessages_unique_ordered_witness :
  let supplied :=
    mkNewMessage (Some "x") agent "" None None (Some true) None in
  let calls :=
    [ mkAddCall (userMessage "Hi") "g1" 10;
      mkAddCall supplied "g2" 10;
      mkAddCall (userMessage "again") "g3" 12 ] in
  let st := addMessages calls (initialState "s0") in
  ids st = ["g1"; "x"; "g3"] /\
  timestamps st = [10; 10; 12] /\
  NoDup (ids st) /\ Sorted Z.le (timestamps st).
Proof.
  split; [reflexivity |]. split; [reflexivity |].
  apply (addMessages_unique_ordered
           [ mkAddCall (userMessage "Hi") "g1" 10;
             mkAddCall
               (mkNewMessage (Some "x") agent "" None None (Some true) None)
               "g2" 10;
             mkAddCall (userMessage "again") "g3" 12 ]
           (initialState "s0") 0).
  - constructor.
  - constructor.
  - constructor.
  - simpl. lia.
  - simpl. repeat split; try discriminate;
      intros _ H; repeat (destruct H as [H | H]; [discriminate H |]);
      exact H.
  - simpl. repeat split; try discriminate;
      intros i E H; inversion E; subst;
      repeat (destruct H as [H | H]; [discriminate H |]); exact H.
Defined.

(** C4 as the specification words it fails for a caller-supplied id: the
    store takes the id as given, so supplying the same id twice leaves two
    messages with that id (the clock not going back and no identifier being
    generated). *)
Lemma addMessage_supplied_id_counterexample :
  let supplied :=
    mkNewMessage (Some "x") agent "" None None (Some true) None in
  let calls := [ mkAddCall supplied "g1" 10; mkAddCall supplied "g2" 11 ] in
  let st := addMessages calls (initialState "s0") in
  clockMonotone 0 calls /\
  generatedFresh (ids (initialState "s0")) calls /\
  ids st = ["x"; "x"] /\
  ~ NoDup (ids st).
Proof.
  simpl. split; [lia |].
  split; [repeat split; discriminate |].
  split; [reflexivity |].
  intros H. inversion H as [| a l Hin _]; subst.
  apply Hin. left. reflexivity.
Qed.

(** ** The streaming invariant *)

Lemma streamingIdsOf_app (l1 l2 : list Message) :
  streamingIdsOf (l1 ++ l2) = (streamingIdsOf l1 ++ streamingIdsOf l2)%list.
Proof.
  unfold streamingIdsOf. rewrite filter_app, map_app. reflexivity.
Qed.

(** A patch that sets [isStreaming] to [false] on the only id that is
    streaming leaves no message streaming. *)
Lemma streamingIdsOf_patched (i : string) (updates : MessagePatch)
    (l : list Message) :
  p_isStreaming updates = Some (Some false) ->
  (forall j, In j (streamingIdsOf l) -> j = i) ->
  streamingIdsOf
    (map (fun msg => if String.eqb (id msg) i then mergeMessage msg updates
                     else msg) l) = [].
Proof.
  intros Hp. induction l as [| m l IH]; intros Hall.
  - reflexivity.
  - assert (Hl : forall j, In j (streamingIdsOf l) -> j = i).
    { intros j Hj. apply Hall. unfold streamingIdsOf in *. simpl.
      destruct (streamingNow m); [right |]; exact Hj. }
    specialize (IH Hl). unfold streamingIdsOf in *. simpl.
    destruct (String.eqb_spec (id m) i) as [E | E].
    + unfold streamingNow at 1. simpl. rewrite Hp. simpl. exact IH.
    + destruct (streamingNow m) eqn:Hm.
      * exfalso. apply E. apply Hall. simpl. rewrite Hm. left. reflexivity.
      * exact IH.
Qed.

Lemma successPatch_stops (r : ChatResponse.t) (t0 t1 : Z) :
  p_isStreaming (successPatch r t0 t1) = Some (Some false).
Proof. reflexivity. Qed.

Lemma failurePatch_stops (e : Thrown) :
  p_isStreaming (failurePatch e) = Some (Some false).
Proof. reflexivity. Qed.

(** The messages after the [try]/[catch] body: the patch applied. *)
Lemma reconcile_messages (p : Pending) (o : Outcome) (endTime : Z)
    (st : ChatState) :
  exists updates,
    p_isStreaming updates = Some (Some false) /\
    messages (handleSendMessage_reconcile p o endTime st) =
    map (fun msg => if String.eqb (id msg) (agentMessageId p)
                    then mergeMessage msg updates else msg) (messages st) /\
    messages (handleSendMessage_settle p o endTime st) =
    messages (handleSendMessage_reconcile p o endTime st) /\
    isLoading (handleSendMessage_reconcile p o endTime st) = isLoading st /\
    streamingMessageId (handleSendMessage_reconcile p o endTime st) =
    streamingMessageId st /\
    p_id updates = None.
Proof.
  destruct o as [r | e]; simpl.
  - exists (successPatch r (startTime p) endTime).
    destruct (negb _); repeat split.
  - exists (failurePatch e). repeat split.
Qed.

Lemma settle_stops_streaming (p : Pending) (o : Outcome) (endTime : Z)
    (st : ChatState) :
  (forall j, In j (streamingIds st) -> j = agentMessageId p) ->
  streamingIds (handleSendMessage_reconcile p o endTime st) = [] /\
  streamingIds (handleSendMessage_settle p o endTime st) = [].
Proof.
  intros Hall.
  destruct (reconcile_messages p o endTime st)
    as (updates & Hstop & Hrec & Hset & _).
  unfold streamingIds. rewrite Hset, Hrec.
  split; apply (streamingIdsOf_patched _ _ _ Hstop Hall).
Qed.

Lemma exchangeInvariant_streaming (s : System) :
  exchangeInvariant s -> streamingInvariant (store s).
Proof.
  unfold exchangeInvariant, streamingInvariant.
  destruct (inflight s) as [| p [| q rest]].
  - intros (_ & Hid & Hs). rewrite Hs, Hid. split; [simpl; lia |].
    intros i Hi. discriminate Hi.
  - intros (_ & Hid & Hs). rewrite Hs, Hid. split; [simpl; lia |].
    intros i Hi. injection Hi as <-. reflexivity.
  - intros [].
Qed.

Lemma exchangeInvariant_idle (s : System) :
  exchangeInvariant s -> isLoading (store s) = false ->
  inflight s = [] /\ streamingMessageId (store s) = None /\
  streamingIds (store s) = [].
Proof.
  unfold exchangeInvariant.
  destruct (inflight s) as [| p [| q rest]].
  - intros (_ & Hid & Hs) _. repeat split; assumption.
  - intros (Hl & _) Hf. rewrite Hl in Hf. discriminate Hf.
  - intros [].
Qed.

Lemma exchangeInvariant_init (uuid : string) :
  exchangeInvariant (initSystem uuid).
Proof. repeat split. Qed.

(** Where the send event calls the controller, the input was enabled. *)
Lemma send_enabled (text : string) (s : System) (c : string) :
  fst (handleSend (isLoading (store s)) (mkInput text [])) = Some c ->
  isLoading (store s) = false.
Proof. intros H. apply (handleSend_calls _ _ _ H). Qed.

Lemma streamingIds_begin (sid : string) (u : UserPreferences)
    (c : string) (e : SendEnv) (st : ChatState) :
  streamingIds (fst (handleSendMessage_begin sid u c e st)) =
  (streamingIds st ++ [uuid2 e])%list.
Proof.
  rewrite handleSendMessage_begin_store. unfold streamingIds. simpl.
  change (map id (filter streamingNow ?l)) with (streamingIdsOf l).
  rewrite streamingIdsOf_app. reflexivity.
Qed.

(** The invariant is kept by every event that is not a reset or a reload
    in the middle of an exchange. *)
Lemma exchangeInvariant_step (ev : Event) (s s' : System) :
  exchangeInvariant s -> calm ev s = true -> step ev s = Some s' ->
  exchangeInvariant s'.
Proof.
  intros Hinv Hcalm Hstep.
  destruct ev as [uuid now | text e | k o endTime | uuid | q | uuid];
    cbv beta iota delta [step calm] in Hstep, Hcalm.
  - (* Mount *)
    destruct (messages (store s)) as [| m l] eqn:Hm.
    + destruct (fresh uuid s); [| discriminate Hstep].
      injection Hstep as <-. unfold exchangeInvariant in *. simpl.
      unfold streamingIds in *. simpl. rewrite Hm in *. exact Hinv.
    + injection Hstep as <-. exact Hinv.
  - (* Send *)
    destruct (fst (handleSend (isLoading (store s)) (mkInput text [])))
      as [c |] eqn:Hsend.
    + destruct (exchangeInvariant_idle s Hinv (send_enabled _ _ _ Hsend))
        as (Hfl & _ & Hids).
      destruct (_ && _); [| discriminate Hstep].
      pose proof (handleSendMessage_begin_store (sessionId (store s))
                    (userPreferences (store s)) c e (store s)) as Hst.
      pose proof (handleSendMessage_begin_pending (sessionId (store s))
                    (userPreferences (store s)) c e (store s)) as Hp.
      pose proof (streamingIds_begin (sessionId (store s))
                    (userPreferences (store s)) c e (store s)) as Hsi.
      destruct (handleSendMessage_begin _ _ c e (store s)) as [st' p].
      simpl in Hst, Hp, Hsi. injection Hstep as <-.
      rewrite Hids in Hsi. unfold exchangeInvariant.
      cbn [inflight store]. rewrite Hfl. cbn [app].
      rewrite Hsi, Hp, Hst. repeat split.
    + injection Hstep as <-. exact Hinv.
  - (* Settle *)
    destruct (nth_error (inflight s) k) as [p |] eqn:Hk;
      [| discriminate Hstep].
    injection Hstep as <-.
    unfold exchangeInvariant in *. simpl.
    destruct (inflight s) as [| p0 [| q rest]].
    + destruct k; discriminate Hk.
    + destruct k as [| k]; simpl in Hk.
      * injection Hk as ->. simpl. destruct Hinv as (_ & _ & Hs).
        split; [reflexivity |]. split; [reflexivity |].
        apply settle_stops_streaming. rewrite Hs.
        intros j [<- | []]. reflexivity.
      * destruct k; discriminate Hk.
    + destruct Hinv.
  - (* Reset *)
    destruct (fresh uuid s); [| discriminate Hstep].
    injection Hstep as <-.
    apply negb_true_iff in Hcalm.
    destruct (exchangeInvariant_idle s Hinv Hcalm) as (Hfl & _ & _).
    unfold exchangeInvariant. simpl. rewrite Hfl. repeat split.
  - (* Preferences *)
    injection Hstep as <-. exact Hinv.
  - (* Reload *)
    injection Hstep as <-.
    apply negb_true_iff in Hcalm.
    destruct (exchangeInvariant_idle s Hinv Hcalm) as (_ & _ & Hs).
    unfold exchangeInvariant. simpl. repeat split. exact Hs.
Qed.

Lemma weak_from_ids (st : ChatState) :
  (List.length (streamingIds st) <= 1)%nat ->
  (streamingMessageId st = None \/
   exists i, streamingMessageId st = Some i /\
             forall j, In j (streamingIds st) -> j = i) ->
  streamingInvariantWeak st.
Proof.
  intros Hlen H. split; [exact Hlen |].
  intros i Hi j Hj. destruct H as [Hn | (i' & Hi' & Hall)].
  - rewrite Hn in Hi. discriminate Hi.
  - rewrite Hi' in Hi. injection Hi as <-. apply Hall. exact Hj.
Qed.

Lemma streamingInvariant_weaken (st : ChatState) :
  streamingInvariant st -> streamingInvariantWeak st.
Proof.
  intros [Hlen H]. split; [exact Hlen |].
  intros i Hi j Hj. rewrite (H i Hi) in Hj.
  destruct Hj as [<- | []]. reflexivity.
Qed.

(** The four store states of the synchronous half of a send. *)
Lemma begin_states_weak (c : string) (e : SendEnv) (st st' : ChatState) :
  streamingIds st = [] -> streamingMessageId st = None ->
  In st' (handleSendMessage_begin_states c e st) ->
  streamingInvariantWeak st'.
Proof.
  intros Hids Hid Hin.
  assert (Hcases :
    (streamingIds st' = [] /\ streamingMessageId st' = None) \/
    (streamingIds st' = [uuid2 e] /\
     (streamingMessageId st' = None \/
      streamingMessageId st' = Some (uuid2 e)))).
  { unfold handleSendMessage_begin_states, addMessage, set_messages in Hin.
    cbn [fst snd] in Hin.
    destruct Hin as [<- | [<- | [<- | [<- | []]]]];
      unfold streamingIds;
      cbn [messages streamingMessageId setStreamingMessageId setLoading];
      change (map id (filter streamingNow ?l)) with (streamingIdsOf l);
      rewrite !streamingIdsOf_app;
      change (streamingIdsOf (messages st)) with (streamingIds st);
      rewrite Hids.
    - left. split; [reflexivity | exact Hid].
    - right. split; [reflexivity | left; exact Hid].
    - right. split; [reflexivity | right; reflexivity].
    - right. split; [reflexivity | right; reflexivity]. }
  apply weak_from_ids.
  - destruct Hcases as [[H _] | [H _]]; rewrite H; simpl; lia.
  - destruct Hcases as [[_ H] | [Hs [H | H]]].
    + left. exact H.
    + left. exact H.
    + right. exists (uuid2 e). split; [exact H |].
      rewrite Hs. intros j [<- | []]. reflexivity.
Qed.

(** Every store state a handler goes through keeps at most one message
    streaming, and no message other than the one [streamingMessageId]
    names. *)
Lemma exchangeInvariant_eventStates (ev : Event) (s : System)
    (st : ChatState) :
  exchangeInvariant s -> calm ev s = true -> In st (eventStates ev s) ->
  streamingInvariantWeak st.
Proof.
  intros Hinv Hcalm Hin.
  pose proof (exchangeInvariant_streaming s Hinv) as Hstrong.
  destruct ev as [uuid now | text e | k o endTime | uuid | q | uuid];
    cbv beta iota delta [eventStates calm] in Hin, Hcalm.
  - (* Mount *)
    destruct (messages (store s)) as [| m l] eqn:Hm; [| destruct Hin].
    destruct Hin as [<- | []].
    apply streamingInvariant_weaken.
    unfold streamingInvariant, streamingIds in *. simpl.
    rewrite Hm in *. exact Hstrong.
  - (* Send *)
    destruct (fst (handleSend (isLoading (store s)) (mkInput text [])))
      as [c |] eqn:Hsend; [| destruct Hin].
    destruct (exchangeInvariant_idle s Hinv (send_enabled _ _ _ Hsend))
      as (_ & Hid & Hids).
    exact (begin_states_weak c e (store s) st Hids Hid Hin).
  - (* Settle *)
    destruct (nth_error (inflight s) k) as [p |] eqn:Hk; [| destruct Hin].
    assert (Hall : forall j, In j (streamingIds (store s)) ->
                             j = agentMessageId p).
    { unfold exchangeInvariant in Hinv.
      destruct (inflight s) as [| p0 [| q rest]].
      - destruct k; discriminate Hk.
      - destruct k as [| k]; simpl in Hk; [| destruct k; discriminate Hk].
        injection Hk as ->. destruct Hinv as (_ & _ & Hs). rewrite Hs.
        intros j [<- | []]. reflexivity.
      - destruct Hinv. }
    destruct (settle_stops_streaming p o endTime (store s) Hall)
      as [Hrec Hset].
    assert (Hpatched :
      forall updates, p_isStreaming updates = Some (Some false) ->
      streamingIds (updateMessage (agentMessageId p) updates (store s))
      = []).
    { intros updates Hstop.
      apply (streamingIdsOf_patched _ _ _ Hstop Hall). }
    unfold handleSendMessage_settle_states in Hin.
    destruct Hin as [<- | [<- | [<- | [<- | []]]]].
    + split.
      * destruct o; rewrite Hpatched; simpl; try reflexivity; lia.
      * intros i _ j Hj. destruct o; rewrite Hpatched in Hj;
          try reflexivity; destruct Hj.
    + split; [rewrite Hrec; simpl; lia |].
      intros i _ j Hj. rewrite Hrec in Hj. destruct Hj.
    + apply weak_from_ids; [| left; reflexivity].
      change (List.length
                (streamingIds (handleSendMessage_reconcile p o endTime
                                 (store s))) <= 1)%nat.
      rewrite Hrec. simpl. lia.
    + apply weak_from_ids; [| left; reflexivity].
      change (List.length
                (streamingIds (handleSendMessage_reconcile p o endTime
                                 (store s))) <= 1)%nat.
      rewrite Hrec. simpl. lia.
  - (* Reset *)
    destruct Hin as [<- | []]. apply weak_from_ids; simpl.
    + lia.
    + left. reflexivity.
  - (* Preferences *)
    destruct Hin as [<- | []]. apply streamingInvariant_weaken.
    exact Hstrong.
  - (* Reload *)
    destruct Hin as [<- | []]. apply weak_from_ids.
    + destruct Hstrong as [Hlen _]. exact Hlen.
    + left. reflexivity.
Qed.

Lemma runCalm_invariant (evs : list Event) :
  forall s s', exchangeInvariant s -> runCalm evs s = Some s' ->
               exchangeInvariant s'.
Proof.
  induction evs as [| ev evs IH]; intros s s' Hinv Hrun; simpl in Hrun.
  - injection Hrun as <-. exact Hinv.
  - destruct (calm ev s) eqn:Hcalm; [| discriminate Hrun].
    destruct (step ev s) as [s1 |] eqn:Hstep; [| discriminate Hrun].
    apply (IH s1 s'); [| exact Hrun].
    exact (exchangeInvariant_step ev s s1 Hinv Hcalm Hstep).
Qed.

(** A run without a reset or reload in mid-exchange is a run. *)
Lemma runCalm_run (evs : list Event) :
  forall s s', runCalm evs s = Some s' -> run evs s = Some s'.
Proof.
  induction evs as [| ev evs IH]; intros s s' Hrun; simpl in *.
  - exact Hrun.
  - destruct (calm ev s); [| discriminate Hrun].
    destruct (step ev s) as [s1 |]; [| discriminate Hrun].
    apply IH. exact Hrun.
Qed.

(** C1, as the code has it.  From a fresh store, along any sequence of
    events in which no reset and no reload happens while [isLoading] is
    [true] (a send in that situation is refused by the input component),
    between events at most one message has [isStreaming = true] and
    [streamingMessageId], when set, is the id of that message; and in every
    store state the next handler goes through, one per store operation, at
    most one message is streaming and, when [streamingMessageId] is set, no
    message other than the one it names. *)
Theorem streaming_invariant_calm (evs : list Event) (uuid : string)
    (s : System) :
  runCalm evs (initSystem uuid) = Some s ->
  streamingInvariant (store s) /\
  (forall ev st, calm ev s = true -> In st (eventStates ev s) ->
                 streamingInvariantWeak st).
Proof.
  intros Hrun.
  pose proof (runCalm_invariant evs _ _ (exchangeInvariant_init uuid) Hrun)
    as Hinv.
  split.
  - apply exchangeInvariant_streaming. exact Hinv.
  - intros ev st Hcalm Hin.
    exact (exchangeInvariant_eventStates ev s st Hinv Hcalm Hin).
Qed.

Lemma streaming_invariant_calm_witness :
  exists s,
    runCalm orderlyRun (initSystem "s0") = Some s /\
    List.length (messages (store s)) = 5%nat /\
    streamingInvariant (store s) /\
    (forall st,
       In st (eventStates (Send "c" (mkSendEnv "u5" 12 "u6" 13 14)) s) ->
       streamingInvariantWeak st).
Proof.
  eexists. split; [reflexivity |]. split; [reflexivity |].
  destruct (streaming_invariant_calm orderlyRun "s0" _ eq_refl)
    as [Hstrong Hweak].
  split; [exact Hstrong |].
  intros st Hin.
  exact (Hweak (Send "c" (mkSendEnv "u5" 12 "u6" 13 14)) st eq_refl Hin).
Defined.

(** Between the patch of a settlement and the clearing of the transient
    fields, [streamingMessageId] still names the placeholder, which is not
    streaming any more: in the states inside a handler only the weaker form
    holds. *)
Example settle_passes_through_weak_state :
  exists s st,
    runCalm (firstn 2 orderlyRun) (initSystem "s0") = Some s /\
    nth_error (eventStates (Settle 0 (Resolved sampleResponse) 7) s) 0
      = Some st /\
    streamingMessageId st = Some "u2" /\
    streamingIds st = [] /\
    ~ streamingInvariant st.
Proof.
  eexists. eexists. split; [reflexivity |]. split; [reflexivity |].
  split; [reflexivity |]. split; [reflexivity |].
  intros [_ H]. specialize (H "u2" eq_refl). discriminate H.
Qed.

(** C1 as the specification words it fails.  A reset while a request is in
    flight clears [isLoading], so the input component accepts a second
    send; when the first request settles it clears [isLoading] again, under
    the second request, and a third send is accepted: two placeholders are
    streaming.  No send of the run starts while [isLoading] is [true]. *)
Lemma streaming_invariant_counterexample :
  exists s,
    run overlappingRun (initSystem "s0") = Some s /\
    contractKept overlappingRun (initSystem "s0") = true /\
    streamingIds (store s) = ["u4"; "u6"] /\
    streamingMessageId (store s) = Some "u6" /\
    ~ streamingInvariant (store s).
Proof.
  eexists. split; [reflexivity |]. split; [reflexivity |].
  split; [reflexivity |]. split; [reflexivity |].
  intros [Hlen _]. simpl in Hlen. lia.
Qed.

(** ** Completed and failed messages stay as they are *)

Lemma In_removeNth {A : Type} (k : nat) (l : list A) (x : A) :
  In x (removeNth k l) -> In x l.
Proof.
  revert k. induction l as [| a l IH]; intros k H.
  - destruct k; destruct H.
  - destruct k as [| k]; simpl in H.
    + right. exact H.
    + destruct H as [E | H]; [left; exact E | right; exact (IH k H)].
Qed.

Lemma NoDup_map_removeNth {A B : Type} (g : A -> B) (k : nat) (l : list A) :
  NoDup (map g l) -> NoDup (map g (removeNth k l)).
Proof.
  revert k. induction l as [| a l IH]; intros k H.
  - destruct k; exact H.
  - inversion H as [| b l' Hnotin Hl]; subst.
    destruct k as [| k]; simpl; [exact Hl |].
    constructor; [| apply IH; exact Hl].
    intros Hin. apply Hnotin. apply in_map_iff in Hin.
    destruct Hin as (x & Hx & Hin). apply in_map_iff.
    exists x. split; [exact Hx | exact (In_removeNth k l x Hin)].
Qed.

(** The other suspended calls hold other ids. *)
Lemma removeNth_other {A B : Type} (g : A -> B) (k : nat) (l : list A)
    (p q : A) :
  NoDup (map g l) -> nth_error l k = Some p -> In q (removeNth k l) ->
  g q <> g p.
Proof.
  revert k. induction l as [| a l IH]; intros k Hnd Hk Hq.
  - destruct k; discriminate Hk.
  - inversion Hnd as [| b l' Hnotin Hl]; subst.
    destruct k as [| k]; simpl in Hk, Hq.
    + injection Hk as ->. intros E. apply Hnotin. rewrite <- E.
      apply in_map. exact Hq.
    + destruct Hq as [-> | Hq].
      * intros E. apply Hnotin. rewrite E. apply in_map.
        exact (nth_error_In l k Hk).
      * exact (IH k Hl Hk Hq).
Qed.

Lemma NoDup_map_same {A B : Type} (g : A -> B) (l : list A) (a b : A) :
  NoDup (map g l) -> In a l -> In b l -> g a = g b -> a = b.
Proof.
  induction l as [| x l IH]; intros Hnd Ha Hb E; [destruct Ha |].
  inversion Hnd as [| y l' Hnotin Hl]; subst.
  destruct Ha as [-> | Ha]; destruct Hb as [-> | Hb].
  - reflexivity.
  - exfalso. apply Hnotin. rewrite E. apply in_map. exact Hb.
  - exfalso. apply Hnotin. rewrite <- E. apply in_map. exact Ha.
  - exact (IH Hl Ha Hb E).
Qed.

(** A patch without an [id] key keeps the ids. *)
Lemma patched_id (i : string) (updates : MessagePatch) (m : Message) :
  p_id updates = None ->
  id (if String.eqb (id m) i then mergeMessage m updates else m) = id m.
Proof.
  intros H. destruct (String.eqb (id m) i); [| reflexivity].
  simpl. rewrite H. reflexivity.
Qed.

Lemma patched_ids (i : string) (updates : MessagePatch) (l : list Message) :
  p_id updates = None ->
  map id (map (fun msg => if String.eqb (id msg) i
                          then mergeMessage msg updates else msg) l)
  = map id l.
Proof.
  intros H. rewrite map_map. apply map_ext. intros m.
  apply patched_id. exact H.
Qed.

Lemma issuedInvariant_init (uuid : string) :
  issuedInvariant (initSystem uuid).
Proof.
  unfold issuedInvariant. simpl. repeat split; try constructor;
    intros; contradiction.
Qed.

Lemma send_fresh (e : SendEnv) (s : System) :
  fresh (uuid1 e) s && fresh (uuid2 e) s
    && negb (String.eqb (uuid1 e) (uuid2 e)) = true ->
  ~ In (uuid1 e) (issued s) /\ ~ In (uuid2 e) (issued s) /\
  uuid1 e <> uuid2 e.
Proof.
  intros H. apply andb_true_iff in H. destruct H as [H H3].
  apply andb_true_iff in H. destruct H as [H1 H2].
  repeat split.
  - apply fresh_not_issued. exact H1.
  - apply fresh_not_issued. exact H2.
  - apply negb_true_iff in H3. apply String.eqb_neq. exact H3.
Qed.

(** The system a send leads to, when the controller is called. *)
Lemma step_send (text : string) (e : SendEnv) (s s' : System) (c : string) :
  fst (handleSend (isLoading (store s)) (mkInput text [])) = Some c ->
  step (Send text e) s = Some s' ->
  (~ In (uuid1 e) (issued s) /\ ~ In (uuid2 e) (issued s) /\
   uuid1 e <> uuid2 e) /\
  messages (store s') =
    (messages (store s) ++
     [ mkMessage (uuid1 e) user c (now1 e) None None None None;
       mkMessage (uuid2 e) agent "" (now2 e) None None (Some true) None ])%list
  /\ (exists p, agentMessageId p = uuid2 e /\
                inflight s' = (inflight s ++ [p])%list) /\
  issued s' = uuid2 e :: uuid1 e :: issued s.
Proof.
  intros Hsend Hstep. cbv beta iota delta [step] in Hstep.
  rewrite Hsend in Hstep.
  destruct (_ && _) eqn:Hf; [| discriminate Hstep].
  split; [exact (send_fresh e s Hf) |].
  pose proof (handleSendMessage_begin_store (sessionId (store s))
                (userPreferences (store s)) c e (store s)) as Hst.
  pose proof (handleSendMessage_begin_pending (sessionId (store s))
                (userPreferences (store s)) c e (store s)) as Hp.
  destruct (handleSendMessage_begin _ _ c e (store s)) as [st' p].
  simpl in Hst, Hp. injection Hstep as <-. cbn [store inflight issued].
  rewrite Hst. split; [reflexivity |]. split; [| reflexivity].
  exists p. rewrite Hp. split; reflexivity.
Qed.

(** The system a settlement leads to. *)
Lemma step_settle (k : nat) (o : Outcome) (endTime : Z) (s s' : System) :
  step (Settle k o endTime) s = Some s' ->
  exists p updates,
    nth_error (inflight s) k = Some p /\
    p_id updates = None /\
    messages (store s') =
      map (fun msg => if String.eqb (id msg) (agentMessageId p)
                      then mergeMessage msg updates else msg)
          (messages (store s)) /\
    inflight s' = removeNth k (inflight s) /\
    issued s' = issued s.
Proof.
  intros Hstep. cbv beta iota delta [step] in Hstep.
  destruct (nth_error (inflight s) k) as [p |] eqn:Hk;
    [| discriminate Hstep].
  injection Hstep as <-.
  destruct (reconcile_messages p o endTime (store s))
    as (updates & _ & Hrec & Hset & _ & _ & Hid).
  exists p, updates. cbn [store inflight issued].
  rewrite Hset, Hrec. repeat split. exact Hid.
Qed.

Lemma issuedInvariant_step (ev : Event) (s s' : System) :
  issuedInvariant s -> step ev s = Some s' -> issuedInvariant s'.
Proof.
  intros (K1 & K2 & K3 & K4 & K5) Hstep.
  destruct ev as [uuid now | text e | k o endTime | uuid | q | uuid].
  - (* Mount *)
    cbv beta iota delta [step] in Hstep.
    destruct (messages (store s)) as [| m0 l0] eqn:Hm.
    + destruct (fresh uuid s) eqn:Hf; [| discriminate Hstep].
      apply fresh_not_issued in Hf. injection Hstep as <-.
      unfold issuedInvariant. cbn [store inflight issued].
      unfold addMessage, set_messages. cbn [fst messages].
      rewrite Hm. cbn [app map].
      split; [| split; [| split; [| split]]].
      * intros m [<- | []]. left. reflexivity.
      * intros p Hp. right. exact (K2 p Hp).
      * constructor; [intros [] | constructor].
      * exact K4.
      * intros p m Hp [<- | []] E. exfalso. apply Hf.
        simpl in E. rewrite E. exact (K2 p Hp).
    + injection Hstep as <-. unfold issuedInvariant. rewrite Hm.
      repeat split; assumption.
  - (* Send *)
    destruct (fst (handleSend (isLoading (store s)) (mkInput text [])))
      as [c |] eqn:Hsend.
    + destruct (step_send text e s s' c Hsend Hstep)
        as ((Hf1 & Hf2 & Hne) & Hmsgs & (p & Hp & Hin') & Hiss).
      unfold issuedInvariant. rewrite Hmsgs, Hin', Hiss.
      split; [| split; [| split; [| split]]].
      * intros m Hin. apply in_app_iff in Hin.
        destruct Hin as [Hin | [<- | [<- | []]]].
        -- right. right. exact (K1 m Hin).
        -- right. left. reflexivity.
        -- left. reflexivity.
      * intros p' Hin. apply in_app_iff in Hin.
        destruct Hin as [Hin | [<- | []]].
        -- right. right. exact (K2 p' Hin).
        -- left. symmetry. exact Hp.
      * rewrite map_app. cbn [map id].
        change [uuid1 e; uuid2 e] with ([uuid1 e] ++ [uuid2 e])%list.
        rewrite app_assoc. apply NoDup_snoc; [apply NoDup_snoc |].
        -- exact K3.
        -- intros Hin. apply Hf1. apply in_map_iff in Hin.
           destruct Hin as (m & <- & Hin). exact (K1 m Hin).
        -- intros Hin. apply in_app_iff in Hin.
           destruct Hin as [Hin | [E | []]].
           ++ apply Hf2. apply in_map_iff in Hin.
              destruct Hin as (m & <- & Hin). exact (K1 m Hin).
           ++ exact (Hne E).
      * rewrite map_app. cbn [map]. rewrite Hp. apply NoDup_snoc.
        -- exact K4.
        -- intros Hin. apply Hf2. apply in_map_iff in Hin.
           destruct Hin as (p' & <- & Hin). exact (K2 p' Hin).
      * intros p' m Hinp Hinm E. apply in_app_iff in Hinp.
        apply in_app_iff in Hinm.
        destruct Hinp as [Hinp | [<- | []]];
          destruct Hinm as [Hinm | [<- | [<- | []]]].
        -- exact (K5 p' m Hinp Hinm E).
        -- exfalso. apply Hf1. simpl in E. rewrite E. exact (K2 p' Hinp).
        -- exfalso. apply Hf2. simpl in E. rewrite E. exact (K2 p' Hinp).
        -- exfalso. apply Hf2. rewrite <- Hp, <- E. exact (K1 m Hinm).
        -- exfalso. apply Hne. simpl in E. rewrite E. exact Hp.
        -- reflexivity.
    + cbv beta iota delta [step] in Hstep. rewrite Hsend in Hstep.
      injection Hstep as <-. repeat split; assumption.
  - (* Settle *)
    destruct (step_settle k o endTime s s' Hstep)
      as (p & updates & Hk & Hid & Hmsgs & Hin' & Hiss).
    unfold issuedInvariant. rewrite Hmsgs, Hin', Hiss.
    split; [| split; [| split; [| split]]].
    + intros m Hin. apply in_map_iff in Hin.
      destruct Hin as (m0 & <- & Hin).
      rewrite (patched_id _ _ m0 Hid). exact (K1 m0 Hin).
    + intros p' Hin. apply K2. exact (In_removeNth k _ p' Hin).
    + rewrite (patched_ids _ _ _ Hid). exact K3.
    + apply NoDup_map_removeNth. exact K4.
    + intros p' m Hinp Hinm E. apply in_map_iff in Hinm.
      destruct Hinm as (m0 & <- & Hinm).
      rewrite (patched_id _ _ m0 Hid) in E.
      pose proof (removeNth_other agentMessageId k _ p p' K4 Hk Hinp) as Hne.
      destruct (String.eqb_spec (id m0) (agentMessageId p)) as [E' | _].
      * exfalso. apply Hne. rewrite <- E, E'. reflexivity.
      * exact (K5 p' m0 (In_removeNth k _ p' Hinp) Hinm E).
  - (* Reset *)
    cbv beta iota delta [step] in Hstep.
    destruct (fresh uuid s); [| discriminate Hstep].
    injection Hstep as <-. unfold issuedInvariant.
    cbn [store inflight issued resetSession messages map].
    split; [| split; [| split; [| split]]].
    + intros m [].
    + intros p Hp. right. exact (K2 p Hp).
    + constructor.
    + exact K4.
    + intros p m _ [].
  - (* Preferences *)
    cbv beta iota delta [step] in Hstep. injection Hstep as <-.
    repeat split; assumption.
  - (* Reload *)
    cbv beta iota delta [step] in Hstep. injection Hstep as <-.
    unfold issuedInvariant. cbn [store inflight issued map].
    split; [| split; [| split; [| split]]].
    + exact K1.
    + intros p [].
    + exact K3.
    + constructor.
    + intros p m [].
Qed.

Lemma terminal_not_streaming (m : Message) :
  isTerminal m -> stateOf m <> Some streaming.
Proof. intros [H | H] E; rewrite H in E; discriminate E. Qed.

(** One event leaves a completed or failed message as it is: afterwards a
    message with its id, if there is one, is the same message. *)
Lemma frozen_step (ev : Event) (s s' : System) (m : Message) :
  issuedInvariant s -> isTerminal m -> frozen m s -> step ev s = Some s' ->
  frozen m s'.
Proof.
  intros (K1 & K2 & K3 & K4 & K5) Hterm [Hiss Hsame] Hstep.
  destruct ev as [uuid now | text e | k o endTime | uuid | q | uuid].
  - (* Mount *)
    cbv beta iota delta [step] in Hstep.
    destruct (messages (store s)) as [| m0 l0] eqn:Hm.
    + destruct (fresh uuid s) eqn:Hf; [| discriminate Hstep].
      apply fresh_not_issued in Hf. injection Hstep as <-.
      unfold frozen. cbn [store issued].
      unfold addMessage, set_messages. cbn [fst messages]. rewrite Hm.
      split; [right; exact Hiss |].
      intros m' [<- | []] E. exfalso. apply Hf. simpl in E. rewrite E.
      exact Hiss.
    + injection Hstep as <-. split; [exact Hiss |]. rewrite Hm.
      exact Hsame.
  - (* Send *)
    destruct (fst (handleSend (isLoading (store s)) (mkInput text [])))
      as [c |] eqn:Hsend.
    + destruct (step_send text e s s' c Hsend Hstep)
        as ((Hf1 & Hf2 & _) & Hmsgs & _ & Hissued).
      unfold frozen. rewrite Hmsgs, Hissued.
      split; [right; right; exact Hiss |].
      intros m' Hin E. apply in_app_iff in Hin.
      destruct Hin as [Hin | [<- | [<- | []]]].
      * exact (Hsame m' Hin E).
      * exfalso. apply Hf1. simpl in E. rewrite E. exact Hiss.
      * exfalso. apply Hf2. simpl in E. rewrite E. exact Hiss.
    + cbv beta iota delta [step] in Hstep. rewrite Hsend in Hstep.
      injection Hstep as <-. split; assumption.
  - (* Settle *)
    destruct (step_settle k o endTime s s' Hstep)
      as (p & updates & Hk & Hid & Hmsgs & _ & Hissued).
    unfold frozen. rewrite Hmsgs, Hissued. split; [exact Hiss |].
    intros m' Hin E. apply in_map_iff in Hin.
    destruct Hin as (m0 & <- & Hin).
    rewrite (patched_id _ _ m0 Hid) in E.
    pose proof (Hsame m0 Hin E) as ->.
    destruct (String.eqb_spec (id m) (agentMessageId p)) as [E' | _];
      [| reflexivity].
    exfalso. apply (terminal_not_streaming m Hterm).
    exact (K5 p m (nth_error_In _ k Hk) Hin E').
  - (* Reset *)
    cbv beta iota delta [step] in Hstep.
    destruct (fresh uuid s); [| discriminate Hstep].
    injection Hstep as <-. unfold frozen.
    cbn [store issued resetSession messages].
    split; [right; exact Hiss | intros m' []].
  - (* Preferences *)
    cbv beta iota delta [step] in Hstep. injection Hstep as <-.
    split; assumption.
  - (* Reload *)
    cbv beta iota delta [step] in Hstep. injection Hstep as <-.
    split; assumption.
Qed.

Lemma issuedInvariant_run (evs : list Event) :
  forall s s', issuedInvariant s -> run evs s = Some s' ->
               issuedInvariant s'.
Proof.
  induction evs as [| ev evs IH]; intros s s' Hinv Hrun; simpl in Hrun.
  - injection Hrun as <-. exact Hinv.
  - destruct (step ev s) as [s1 |] eqn:Hstep; [| discriminate Hrun].
    exact (IH s1 s' (issuedInvariant_step ev s s1 Hinv Hstep) Hrun).
Qed.

Lemma frozen_run (evs : list Event) (m : Message) :
  isTerminal m ->
  forall s s', issuedInvariant s -> frozen m s -> run evs s = Some s' ->
               frozen m s'.
Proof.
  intros Hterm.
  induction evs as [| ev evs IH]; intros s s' Hinv Hfr Hrun; simpl in Hrun.
  - injection Hrun as <-. exact Hfr.
  - destruct (step ev s) as [s1 |] eqn:Hstep; [| discriminate Hrun].
    apply (IH s1 s'); [| | exact Hrun].
    + exact (issuedInvariant_step ev s s1 Hinv Hstep).
    + exact (frozen_step ev s s1 m Hinv Hterm Hfr Hstep).
Qed.

(** C9.  Along every run of the application from a fresh store (sends,
    settlements, resets, reloads, preference changes, the mount effect, in
    any order, [uuidv4()] returning fresh identifiers as [step] requires),
    once a message is completed or failed, every later state
    that has a message with its id has that very message, field for field:
    no step patches it back to streaming or from one terminal state to the
    other.  (A reset removes it with the whole list.) *)
Theorem terminal_messages_frozen (evs evs' : list Event) (uuid : string)
    (s s' : System) (m m' : Message) :
  run evs (initSystem uuid) = Some s ->
  In m (messages (store s)) ->
  isTerminal m ->
  run evs' s = Some s' ->
  In m' (messages (store s')) ->
  id m' = id m ->
  m' = m /\ stateOf m' = stateOf m.
Proof.
  intros Hrun Hin Hterm Hrun' Hin' E.
  pose proof (issuedInvariant_run evs _ _ (issuedInvariant_init uuid) Hrun)
    as Hinv.
  assert (Hfr : frozen m s).
  { destruct Hinv as (K1 & _ & K3 & _). split; [exact (K1 m Hin) |].
    intros m0 Hin0 E0. exact (NoDup_map_same id _ m0 m K3 Hin0 Hin E0). }
  destruct (frozen_run evs' m Hterm s s' Hinv Hfr Hrun') as [_ Hsame].
  pose proof (Hsame m' Hin' E) as ->. split; reflexivity.
Qed.

Lemma terminal_messages_frozen_witness :
  let done :=
    mkMessage "u2" agent "Hi there" 2 (Some []) (Some 120) (Some false) None
  in
  exists s s',
    run (firstn 3 orderlyRun) (initSystem "s0") = Some s /\
    run (skipn 3 orderlyRun) s = Some s' /\
    nth_error (messages (store s)) 2 = Some done /\
    stateOf done = Some completed /\
    nth_error (messages (store s')) 2 = Some done.
Proof.
  eexists. eexists. split; [reflexivity |]. split; [reflexivity |].
  split; [reflexivity |]. split; [reflexivity |].
  match goal with
  | |- nth_error (messages (store ?s')) 2 = Some ?d =>
      destruct (nth_error (messages (store s')) 2) as [m' |] eqn:Hm';
        [| discriminate Hm'];
      assert (Hid : id m' = id d) by (injection Hm' as <-; reflexivity);
      pose proof (terminal_messages_frozen (firstn 3 orderlyRun)
                    (skipn 3 orderlyRun) "s0" _ s' d m' eq_refl
                    (or_intror (or_intror (or_introl eq_refl)))
                    (or_introl eq_refl) eq_refl
                    (nth_error_In _ 2 Hm') Hid) as [-> _]
  end.
  reflexivity.
Defined.

(** Along every run the ids of the messages are pairwise distinct: the
    controller and the mount effect never supply an id, and the generated
    ones are fresh. *)
Lemma run_ids_unique (evs : list Event) (uuid : string) (s : System) :
  run evs (initSystem uuid) = Some s -> NoDup (ids (store s)).
Proof.
  intros Hrun.
  destruct (issuedInvariant_run evs _ _ (issuedInvariant_init uuid) Hrun)
    as (_ & _ & K3 & _).
  exact K3.
Qed.

(** * Further properties of the code *)

(** ** The store *)

Lemma mergeMessage_twice (m : Message) (updates : MessagePatch) :
  mergeMessage (mergeMessage m updates) updates = mergeMessage m updates.
Proof.
  destruct updates as [pi pr pc pt ptu ppt ps pe]. unfold mergeMessage.
  simpl. destruct pi, pr, pc, pt, ptu, ppt, ps, pe; reflexivity.
Qed.

(** Applying the same patch to the same id twice is applying it once,
    also when the patch renames the message or several messages have the
    id. *)
Theorem updateMessage_idempotent (i : string) (updates : MessagePatch)
    (st : ChatState) :
  updateMessage i updates (updateMessage i updates st) =
  updateMessage i updates st.
Proof.
  unfold updateMessage, set_messages. simpl. f_equal.
  rewrite map_map. apply map_ext. intros m.
  destruct (String.eqb_spec (id m) i) as [E | E].
  - destruct (String.eqb_spec (id (mergeMessage m updates)) i) as [_ | _].
    + apply mergeMessage_twice.
    + reflexivity.
  - destruct (String.eqb_spec (id m) i); [contradiction | reflexivity].
Qed.

Lemma patch_commute (i j : string) (p q : MessagePatch) (m : Message) :
  i <> j -> p_id p = None -> p_id q = None ->
  (if String.eqb
        (id (if String.eqb (id m) j then mergeMessage m q else m)) i
   then mergeMessage (if String.eqb (id m) j then mergeMessage m q else m) p
   else (if String.eqb (id m) j then mergeMessage m q else m)) =
  (if String.eqb
        (id (if String.eqb (id m) i then mergeMessage m p else m)) j
   then mergeMessage (if String.eqb (id m) i then mergeMessage m p else m) q
   else (if String.eqb (id m) i then mergeMessage m p else m)).
Proof.
  intros Hne Hp Hq.
  destruct (String.eqb_spec (id m) j) as [Ej | Ej];
    destruct (String.eqb_spec (id m) i) as [Ei | Ei].
  - exfalso. apply Hne. rewrite <- Ei. exact Ej.
  - assert (Hid : id (mergeMessage m q) = id m)
      by (simpl; rewrite Hq; reflexivity).
    rewrite Hid.
    destruct (String.eqb_spec (id m) i); [contradiction |].
    destruct (String.eqb_spec (id m) j); [reflexivity | contradiction].
  - assert (Hid : id (mergeMessage m p) = id m)
      by (simpl; rewrite Hp; reflexivity).
    rewrite Hid.
    destruct (String.eqb_spec (id m) i); [| contradiction].
    destruct (String.eqb_spec (id m) j); [contradiction | reflexivity].
  - destruct (String.eqb_spec (id m) i); [contradiction |].
    destruct (String.eqb_spec (id m) j); [contradiction | reflexivity].
Qed.

(** Two patches that leave the ids alone, applied to different ids, can
    be applied in either order. *)
Theorem updateMessage_commute (i j : string) (p q : MessagePatch)
    (st : ChatState) :
  i <> j -> p_id p = None -> p_id q = None ->
  updateMessage i p (updateMessage j q st) =
  updateMessage j q (updateMessage i p st).
Proof.
  intros Hne Hp Hq. unfold updateMessage, set_messages. simpl. f_equal.
  rewrite !map_map. apply map_ext. intros m.
  exact (patch_commute i j p q m Hne Hp Hq).
Qed.

Lemma updateMessage_commute_witness :
  let p := successPatch sampleResponse 0 5 in
  let q := failurePatch (ThrownError "boom") in
  updateMessage "x" p (updateMessage "y" q sampleThread) =
  updateMessage "y" q (updateMessage "x" p sampleThread).
Proof.
  apply (updateMessage_commute "x" "y"
           (successPatch sampleResponse 0 5)
           (failurePatch (ThrownError "boom")) sampleThread).
  - discriminate.
  - reflexivity.
  - reflexivity.
Defined.

Lemma addMessages_messages (calls : list AddCall) :
  forall st,
  messages (addMessages calls st) =
  (messages st ++
   map (fun c => newMessage (call_message c) (call_uuid c) (call_now c))
       calls)%list.
Proof.
  induction calls as [| c calls IH]; intros st.
  - simpl. rewrite app_nil_r. reflexivity.
  - change (addMessages (c :: calls) st) with
      (addMessages calls
         (fst (addMessage (call_message c) (call_uuid c) (call_now c) st))).
    rewrite IH. simpl. rewrite <- app_assoc. reflexivity.
Qed.

(** [addMessage] is append-only: after any sequence of calls the list is
    the old list followed by one message per call, in call order.  The
    message of a call has the id the caller supplied, or the generated one
    when the caller supplied none, the clock's reading as timestamp, and
    the caller's role, content and optional fields.  The old messages keep
    their positions and nothing else in the state changes. *)
Theorem addMessages_append_only (calls : list AddCall) (st : ChatState) :
  let st' := addMessages calls st in
  let created := fun c : AddCall =>
    {| id := match n_id (call_message c) with
             | Some supplied => supplied
             | None => call_uuid c
             end;
       role := n_role (call_message c);
       content := n_content (call_message c);
       timestamp := call_now c;
       toolsUsed := n_toolsUsed (call_message c);
       processingTime := n_processingTime (call_message c);
       isStreaming := n_isStreaming (call_message c);
       error := n_error (call_message c) |} in
  messages st' = (messages st ++ map created calls)%list /\
  List.length (messages st') =
    (List.length (messages st) + List.length calls)%nat /\
  firstn (List.length (messages st)) (messages st') = messages st /\
  sessionId st' = sessionId st /\
  userPreferences st' = userPreferences st /\
  isLoading st' = isLoading st /\
  streamingMessageId st' = streamingMessageId st.
Proof.
  assert (Hframe : forall cs s,
    sessionId (addMessages cs s) = sessionId s /\
    userPreferences (addMessages cs s) = userPreferences s /\
    isLoading (addMessages cs s) = isLoading s /\
    streamingMessageId (addMessages cs s) = streamingMessageId s).
  { induction cs as [| c cs IH]; intros s; [repeat split |].
    change (addMessages (c :: cs) s) with
      (addMessages cs
         (fst (addMessage (call_message c) (call_uuid c) (call_now c) s))).
    destruct (IH (fst (addMessage (call_message c) (call_uuid c)
                         (call_now c) s))) as (H1 & H2 & H3 & H4).
    rewrite H1, H2, H3, H4. repeat split. }
  intros st' created. subst st'. rewrite addMessages_messages.
  assert (Hc : map (fun c => newMessage (call_message c) (call_uuid c)
                               (call_now c)) calls = map created calls).
  { apply map_ext. intros c. subst created. unfold newMessage, nullish.
    reflexivity. }
  rewrite Hc.
  split; [reflexivity |]. split.
  - rewrite length_app, length_map. reflexivity.
  - split; [| apply Hframe].
    rewrite firstn_app, Nat.sub_diag, firstn_all. cbn [firstn].
    apply app_nil_r.
Qed.

(** ** Settlements *)

Lemma settle_messages (p : Pending) (o : Outcome) (endTime : Z)
    (st : ChatState) :
  messages (handleSendMessage_settle p o endTime st) =
  map (fun msg => if String.eqb (id msg) (agentMessageId p)
                  then mergeMessage msg (settlePatch p o endTime) else msg)
      (messages st).
Proof.
  destruct o as [r | e]; simpl; [destruct (negb _) |]; reflexivity.
Qed.

Lemma settlePatch_keeps (p : Pending) (o : Outcome) (endTime : Z) :
  p_id (settlePatch p o endTime) = None /\
  p_role (settlePatch p o endTime) = None /\
  p_timestamp (settlePatch p o endTime) = None.
Proof. destruct o; repeat split. Qed.

Lemma settle_sessionId (p : Pending) (o : Outcome) (endTime : Z)
    (st : ChatState) :
  sessionId (handleSendMessage_settle p o endTime st) =
  match o with
  | Resolved r =>
      if String.eqb (ChatResponse.session_id r) (sentSessionId p)
      then sessionId st else ChatResponse.session_id r
  | Rejected _ => sessionId st
  end.
Proof.
  destruct o as [r | e]; simpl; [| reflexivity].
  destruct (String.eqb _ _); reflexivity.
Qed.

(** Whenever a response or a failure arrives, whatever the store has
    become in the meantime: no message is added or removed, ids, roles and
    timestamps stay as they are position by position, a message with
    another id than the placeholder's is untouched, the preferences are
    untouched and both transient fields are cleared.  When the placeholder
    is gone the list is left exactly as it is. *)
Theorem settle_frame (p : Pending) (o : Outcome) (endTime : Z)
    (st : ChatState) :
  let st' := handleSendMessage_settle p o endTime st in
  map id (messages st') = map id (messages st) /\
  map role (messages st') = map role (messages st) /\
  map timestamp (messages st') = map timestamp (messages st) /\
  (forall k m, nth_error (messages st) k = Some m ->
               id m <> agentMessageId p ->
               nth_error (messages st') k = Some m) /\
  ((forall m, In m (messages st) -> id m <> agentMessageId p) ->
   messages st' = messages st) /\
  userPreferences st' = userPreferences st /\
  isLoading st' = false /\
  streamingMessageId st' = None.
Proof.
  intros st'. subst st'. rewrite settle_messages.
  destruct (settlePatch_keeps p o endTime) as (Hi & Hr & Ht).
  split; [| split; [| split; [| split; [| split]]]].
  - rewrite map_map. apply map_ext. intros m.
    destruct (String.eqb _ _); [simpl; rewrite Hi |]; reflexivity.
  - rewrite map_map. apply map_ext. intros m.
    destruct (String.eqb _ _); [simpl; rewrite Hr |]; reflexivity.
  - rewrite map_map. apply map_ext. intros m.
    destruct (String.eqb _ _); [simpl; rewrite Ht |]; reflexivity.
  - intros k m Hk Hne. rewrite nth_error_map, Hk. simpl.
    destruct (String.eqb_spec (id m) (agentMessageId p));
      [contradiction | reflexivity].
  - intros Hnone. apply map_id_when_unmatched. exact Hnone.
  - destruct o as [r | e]; simpl; [destruct (negb _) |]; repeat split.
Qed.

Lemma goneId_step (ev : Event) (s s' : System) (i : string) :
  goneId i s -> step ev s = Some s' -> goneId i s'.
Proof.
  intros [Hiss Hgone] Hstep.
  destruct ev as [uuid now | text e | k o endTime | uuid | q | uuid].
  - (* Mount *)
    cbv beta iota delta [step] in Hstep.
    destruct (messages (store s)) as [| m0 l0] eqn:Hm.
    + destruct (fresh uuid s) eqn:Hf; [| discriminate Hstep].
      apply fresh_not_issued in Hf. injection Hstep as <-.
      unfold goneId. cbn [store issued].
      unfold addMessage, set_messages. cbn [fst messages]. rewrite Hm.
      split; [right; exact Hiss |].
      intros m [<- | []] E. apply Hf. simpl in E. rewrite E. exact Hiss.
    + injection Hstep as <-. split; [exact Hiss |]. rewrite Hm.
      exact Hgone.
  - (* Send *)
    destruct (fst (handleSend (isLoading (store s)) (mkInput text [])))
      as [c |] eqn:Hsend.
    + destruct (step_send text e s s' c Hsend Hstep)
        as ((Hf1 & Hf2 & _) & Hmsgs & _ & Hissued).
      unfold goneId. rewrite Hmsgs, Hissued.
      split; [right; right; exact Hiss |].
      intros m Hin E. apply in_app_iff in Hin.
      destruct Hin as [Hin | [<- | [<- | []]]].
      * exact (Hgone m Hin E).
      * apply Hf1. simpl in E. rewrite E. exact Hiss.
      * apply Hf2. simpl in E. rewrite E. exact Hiss.
    + cbv beta iota delta [step] in Hstep. rewrite Hsend in Hstep.
      injection Hstep as <-. split; assumption.
  - (* Settle *)
    destruct (step_settle k o endTime s s' Hstep)
      as (p & updates & _ & Hid & Hmsgs & _ & Hissued).
    unfold goneId. rewrite Hmsgs, Hissued. split; [exact Hiss |].
    intros m Hin E. apply in_map_iff in Hin.
    destruct Hin as (m0 & <- & Hin).
    rewrite (patched_id _ _ m0 Hid) in E. exact (Hgone m0 Hin E).
  - (* Reset *)
    cbv beta iota delta [step] in Hstep.
    destruct (fresh uuid s); [| discriminate Hstep].
    injection Hstep as <-. unfold goneId.
    cbn [store issued resetSession messages].
    split; [right; exact Hiss | intros m []].
  - (* Preferences *)
    cbv beta iota delta [step] in Hstep. injection Hstep as <-.
    split; assumption.
  - (* Reload *)
    cbv beta iota delta [step] in Hstep. injection Hstep as <-.
    split; assumption.
Qed.

Lemma goneId_run (evs : list Event) (i : string) :
  forall s s', goneId i s -> run evs s = Some s' -> goneId i s'.
Proof.
  induction evs as [| ev evs IH]; intros s s' Hg Hrun; simpl in Hrun.
  - injection Hrun as <-. exact Hg.
  - destruct (step ev s) as [s1 |] eqn:Hstep; [| discriminate Hrun].
    exact (IH s1 s' (goneId_step ev s s1 i Hg Hstep) Hrun).
Qed.

(** A request that was in flight when the session was reset never touches
    the list again, however late it settles and whatever was sent in
    between: the reset has removed its placeholder, so the settlement
    leaves every message as it is and only clears the two transient
    fields.  It still decides the session id: a response whose session id
    differs from the one that was sent replaces the current one (right
    after the reset, the identifier the reset has just generated). *)
Theorem late_response_after_reset (evs evs' : list Event) (uuid u : string)
    (k : nat) (p : Pending) (o : Outcome) (endTime : Z)
    (s0 s1 s2 s3 : System) :
  run evs (initSystem uuid) = Some s0 ->
  In p (inflight s0) ->
  step (Reset u) s0 = Some s1 ->
  run evs' s1 = Some s2 ->
  nth_error (inflight s2) k = Some p ->
  step (Settle k o endTime) s2 = Some s3 ->
  messages (store s1) = [] /\
  sessionId (store s1) = u /\
  messages (store s3) = messages (store s2) /\
  isLoading (store s3) = false /\
  streamingMessageId (store s3) = None /\
  sessionId (store s3) =
    match o with
    | Resolved r =>
        if String.eqb (ChatResponse.session_id r) (sentSessionId p)
        then sessionId (store s2) else ChatResponse.session_id r
    | Rejected _ => sessionId (store s2)
    end.
Proof.
  intros Hrun Hin Hreset Hrun' Hk Hsettle.
  destruct (issuedInvariant_run evs _ _ (issuedInvariant_init uuid) Hrun)
    as (_ & K2 & _).
  assert (Hgone1 : goneId (agentMessageId p) s1 /\
                   messages (store s1) = [] /\ sessionId (store s1) = u).
  { cbv beta iota delta [step] in Hreset.
    destruct (fresh u s0); [| discriminate Hreset].
    injection Hreset as <-. unfold goneId.
    cbn [store issued resetSession messages sessionId].
    split; [| split; reflexivity].
    split; [right; exact (K2 p Hin) | intros m []]. }
  destruct Hgone1 as (Hgone1 & Hm1 & Hs1).
  destruct (goneId_run evs' _ s1 s2 Hgone1 Hrun') as [_ Hgone2].
  cbv beta iota delta [step] in Hsettle. rewrite Hk in Hsettle.
  injection Hsettle as <-. cbn [store].
  split; [exact Hm1 |]. split; [exact Hs1 |].
  split; [| split; [reflexivity | split; [reflexivity |]]].
  - rewrite settle_messages. apply map_id_when_unmatched. exact Hgone2.
  - apply settle_sessionId.
Qed.

Lemma late_response_after_reset_witness :
  exists s0 s1 s2 s3,
    run (firstn 1 overlappingRun) (initSystem "s0") = Some s0 /\
    step (Reset "r1") s0 = Some s1 /\
    run [Send "b" (mkSendEnv "u3" 4 "u4" 5 6)] s1 = Some s2 /\
    step (Settle 0 (Resolved sampleResponse) 7) s2 = Some s3 /\
    ids (store s2) = ["u3"; "u4"] /\
    messages (store s3) = messages (store s2) /\
    sessionId (store s2) = "r1" /\
    sessionId (store s3) = "s2".
Proof.
  eexists. eexists. eexists. eexists.
  split; [reflexivity |]. split; [reflexivity |]. split; [reflexivity |].
  split; [reflexivity |]. split; [reflexivity |].
  let r := eval vm_compute in
             (run (firstn 1 overlappingRun) (initSystem "s0")) in
  match r with
  | Some ?s0 =>
      let q := eval vm_compute in (nth_error (inflight s0) 0) in
      match q with
      | Some ?p0 =>
          destruct (late_response_after_reset (firstn 1 overlappingRun)
                      [Send "b" (mkSendEnv "u3" 4 "u4" 5 6)] "s0" "r1" 0 p0
                      (Resolved sampleResponse) 7 s0 _ _ _
                      eq_refl (or_introl eq_refl) eq_refl eq_refl eq_refl
                      eq_refl)
            as (_ & _ & Hm & _ & _ & Hs)
      end
  end.
  split; [exact Hm |]. split; [reflexivity | exact Hs].
Defined.

(** ** Who can change a message *)

Lemma In_inflightIds_removeNth (k : nat) (s : System) (i : string) :
  In i (map agentMessageId (removeNth k (inflight s))) ->
  In i (inflightIds s).
Proof.
  intros H. apply in_map_iff in H. destruct H as (p & <- & Hp).
  apply in_map. exact (In_removeNth k _ p Hp).
Qed.

Lemma outOfReach_step (ev : Event) (s s' : System) (m : Message) :
  outOfReach m s -> step ev s = Some s' -> outOfReach m s'.
Proof.
  intros (Hiss & Hfree & Hsame) Hstep.
  destruct ev as [uuid now | text e | k o endTime | uuid | q | uuid].
  - (* Mount *)
    cbv beta iota delta [step] in Hstep.
    destruct (messages (store s)) as [| m0 l0] eqn:Hm.
    + destruct (fresh uuid s) eqn:Hf; [| discriminate Hstep].
      apply fresh_not_issued in Hf. injection Hstep as <-.
      unfold outOfReach, inflightIds. cbn [store issued inflight].
      unfold addMessage, set_messages. cbn [fst messages]. rewrite Hm.
      split; [right; exact Hiss |]. split; [exact Hfree |].
      intros m' [<- | []] E. exfalso. apply Hf. simpl in E. rewrite E.
      exact Hiss.
    + injection Hstep as <-. unfold outOfReach. rewrite Hm.
      repeat split; assumption.
  - (* Send *)
    destruct (fst (handleSend (isLoading (store s)) (mkInput text [])))
      as [c |] eqn:Hsend.
    + destruct (step_send text e s s' c Hsend Hstep)
        as ((Hf1 & Hf2 & _) & Hmsgs & (p & Hp & Hin') & Hissued).
      unfold outOfReach, inflightIds. rewrite Hmsgs, Hin', Hissued.
      split; [right; right; exact Hiss |]. split.
      * rewrite map_app. intros Hin. apply in_app_iff in Hin.
        destruct Hin as [Hin | [E | []]]; [exact (Hfree Hin) |].
        apply Hf2. rewrite <- Hp, E. exact Hiss.
      * intros m' Hin E. apply in_app_iff in Hin.
        destruct Hin as [Hin | [<- | [<- | []]]].
        -- exact (Hsame m' Hin E).
        -- exfalso. apply Hf1. simpl in E. rewrite E. exact Hiss.
        -- exfalso. apply Hf2. simpl in E. rewrite E. exact Hiss.
    + cbv beta iota delta [step] in Hstep. rewrite Hsend in Hstep.
      injection Hstep as <-. repeat split; assumption.
  - (* Settle *)
    destruct (step_settle k o endTime s s' Hstep)
      as (p & updates & Hk & Hid & Hmsgs & Hin' & Hissued).
    unfold outOfReach, inflightIds. rewrite Hmsgs, Hin', Hissued.
    split; [exact Hiss |]. split.
    + intros Hin. apply Hfree. exact (In_inflightIds_removeNth k s _ Hin).
    + intros m' Hin E. apply in_map_iff in Hin.
      destruct Hin as (m0 & <- & Hin).
      rewrite (patched_id _ _ m0 Hid) in E.
      pose proof (Hsame m0 Hin E) as ->.
      destruct (String.eqb_spec (id m) (agentMessageId p)) as [E' | _];
        [| reflexivity].
      exfalso. apply Hfree. rewrite E'. unfold inflightIds.
      apply in_map. exact (nth_error_In _ k Hk).
  - (* Reset *)
    cbv beta iota delta [step] in Hstep.
    destruct (fresh uuid s); [| discriminate Hstep].
    injection Hstep as <-. unfold outOfReach, inflightIds.
    cbn [store issued inflight resetSession messages].
    split; [right; exact Hiss |]. split; [exact Hfree |]. intros m' [].
  - (* Preferences *)
    cbv beta iota delta [step] in Hstep. injection Hstep as <-.
    repeat split; assumption.
  - (* Reload *)
    cbv beta iota delta [step] in Hstep. injection Hstep as <-.
    unfold outOfReach, inflightIds. cbn [store issued inflight map].
    split; [exact Hiss |]. split; [intros [] | exact Hsame].
Qed.

Lemma outOfReach_run (evs : list Event) (m : Message) :
  forall s s', outOfReach m s -> run evs s = Some s' -> outOfReach m s'.
Proof.
  induction evs as [| ev evs IH]; intros s s' Hm Hrun; simpl in Hrun.
  - injection Hrun as <-. exact Hm.
  - destruct (step ev s) as [s1 |] eqn:Hstep; [| discriminate Hrun].
    exact (IH s1 s' (outOfReach_step ev s s1 m Hm Hstep) Hrun).
Qed.

(** A message is only ever changed by the settlement of the request that
    created it.  Once no request in flight holds its id (a user message, a
    greeting, a settled placeholder, and also a placeholder whose request
    was dropped by a reload), every later state that has a message with its
    id has that very message: a placeholder left streaming by a reload
    stays streaming for good. *)
Theorem message_changes_only_by_own_settlement (evs evs' : list Event)
    (uuid : string) (s s' : System) (m m' : Message) :
  run evs (initSystem uuid) = Some s ->
  In m (messages (store s)) ->
  ~ In (id m) (inflightIds s) ->
  run evs' s = Some s' ->
  In m' (messages (store s')) ->
  id m' = id m ->
  m' = m.
Proof.
  intros Hrun Hin Hfree Hrun' Hin' E.
  destruct (issuedInvariant_run evs _ _ (issuedInvariant_init uuid) Hrun)
    as (K1 & _ & K3 & _).
  assert (Hm : outOfReach m s).
  { split; [exact (K1 m Hin) |]. split; [exact Hfree |].
    intros m0 Hin0 E0. exact (NoDup_map_same id _ m0 m K3 Hin0 Hin E0). }
  destruct (outOfReach_run evs' m s s' Hm Hrun') as (_ & _ & Hsame).
  exact (Hsame m' Hin' E).
Qed.

Lemma message_changes_only_by_own_settlement_witness :
  let orphan := mkMessage "u2" agent "" 2 None None (Some true) None in
  let evs := [ Send "a" (mkSendEnv "u1" 1 "u2" 2 3); Reload "s9" ] in
  let evs' := [ Send "b" (mkSendEnv "u3" 4 "u4" 5 6);
                Settle 0 (Resolved sampleResponse) 7 ] in
  exists s s',
    run evs (initSystem "s0") = Some s /\
    run evs' s = Some s' /\
    nth_error (messages (store s)) 1 = Some orphan /\
    nth_error (messages (store s')) 1 = Some orphan.
Proof.
  eexists. eexists. split; [reflexivity |]. split; [reflexivity |].
  split; [reflexivity |].
  match goal with
  | |- nth_error (messages (store ?s')) 1 = Some ?d =>
      destruct (nth_error (messages (store s')) 1) as [m' |] eqn:Hm';
        [| discriminate Hm'];
      assert (Hid : id m' = id d) by (injection Hm' as <-; reflexivity);
      pose proof (message_changes_only_by_own_settlement
                    [ Send "a" (mkSendEnv "u1" 1 "u2" 2 3); Reload "s9" ]
                    [ Send "b" (mkSendEnv "u3" 4 "u4" 5 6);
                      Settle 0 (Resolved sampleResponse) 7 ]
                    "s0" _ s' d m' eq_refl
                    (or_intror (or_introl eq_refl))
                    (fun H : False => H) eq_refl
                    (nth_error_In _ 1 Hm') Hid) as ->
  end.
  reflexivity.
Defined.

(** ** What a send hands over *)

Lemma trimEnd_idempotent (s : string) : trimEnd (trimEnd s) = trimEnd s.
Proof.
  induction s as [| c r IH]; [reflexivity |].
  simpl. destruct (trimEnd r) as [| d k] eqn:Hk.
  - destruct (isWhiteSpace c) eqn:Hc; simpl; [| rewrite Hc]; reflexivity.
  - simpl in IH. simpl.
    destruct (trimEnd k) as [| d' k'] eqn:Hk'.
    + destruct (isWhiteSpace d); [discriminate IH |].
      rewrite IH. reflexivity.
    + rewrite IH. reflexivity.
Qed.

Lemma trimStart_noLeadingSpace (s : string) : noLeadingSpace (trimStart s).
Proof.
  induction s as [| c r IH]; simpl; [exact I |].
  destruct (isWhiteSpace c) eqn:Hc; [exact IH | exact Hc].
Qed.

Lemma trimStart_fixed (s : string) : noLeadingSpace s -> trimStart s = s.
Proof.
  destruct s as [| c r]; simpl; [reflexivity |].
  intros H. rewrite H. reflexivity.
Qed.

Lemma trimEnd_noLeadingSpace (s : string) :
  noLeadingSpace s -> noLeadingSpace (trimEnd s).
Proof.
  destruct s as [| c r]; simpl; [trivial |].
  intros H. destruct (trimEnd r); [rewrite H |]; exact H.
Qed.

Lemma trim_idempotent (s : string) : trim (trim s) = trim s.
Proof.
  unfold trim.
  rewrite (trimStart_fixed (trimEnd (trimStart s))).
  - apply trimEnd_idempotent.
  - apply trimEnd_noLeadingSpace. apply trimStart_noLeadingSpace.
Qed.

Lemma orString_nonempty (s : option string) (d : string) :
  d <> "" -> orString s d <> "".
Proof.
  intros Hd. unfold orString. destruct s as [x |]; [| exact Hd].
  destruct (String.eqb_spec x ""); assumption.
Qed.

Lemma sendInvariant_init (uuid : string) : sendInvariant (initSystem uuid).
Proof. split; simpl; intros ? []. Qed.

Lemma sendInvariant_step (ev : Event) (s s' : System) :
  sendInvariant s -> step ev s = Some s' -> sendInvariant s'.
Proof.
  intros [Hu Hp] Hstep.
  destruct ev as [uuid now | text e | k o endTime | uuid | q | uuid].
  - (* Mount *)
    cbv beta iota delta [step] in Hstep.
    destruct (messages (store s)) as [| m0 l0] eqn:Hm.
    + destruct (fresh uuid s); [| discriminate Hstep].
      injection Hstep as <-.
      unfold sendInvariant, inflightIds. cbn [store issued inflight].
      unfold addMessage, set_messages. cbn [fst messages]. rewrite Hm.
      split.
      * intros m [<- | []] Hrole. discriminate Hrole.
      * intros p Hin. destruct (Hp p Hin) as (H1 & H2 & H3 & H4).
        repeat split; try assumption; try apply H1. right. exact H4.
    + injection Hstep as <-. unfold sendInvariant. rewrite Hm.
      split; assumption.
  - (* Send *)
    destruct (fst (handleSend (isLoading (store s)) (mkInput text [])))
      as [c |] eqn:Hsend.
    + destruct (handleSend_calls _ _ _ Hsend) as (Hc & Hne & _).
      simpl in Hc.
      assert (Hclean : cleanText c).
      { split; [exact Hne |]. rewrite Hc. apply trim_idempotent. }
      pose proof (step_send text e s s' c Hsend Hstep)
        as ((Hf1 & Hf2 & Hd) & Hmsgs & _ & Hissued).
      assert (Hin' : inflight s' =
                     (inflight s ++
                      [snd (handleSendMessage_begin (sessionId (store s))
                              (userPreferences (store s)) c e (store s))])
                     %list).
      { cbv beta iota delta [step] in Hstep. rewrite Hsend in Hstep.
        destruct (_ && _); [| discriminate Hstep].
        destruct (handleSendMessage_begin _ _ c e (store s)) as [st' p].
        injection Hstep as <-. reflexivity. }
      rewrite handleSendMessage_begin_pending in Hin'.
      assert (Hold : forall i, In i (inflightIds s) -> In i (issued s)).
      { intros i Hi. apply in_map_iff in Hi. destruct Hi as (p & <- & Hi).
        apply (Hp p Hi). }
      unfold sendInvariant, inflightIds. rewrite Hmsgs, Hin', Hissued.
      split.
      * intros m Hin Hrole. apply in_app_iff in Hin.
        rewrite map_app. cbn [map agentMessageId].
        destruct Hin as [Hin | [<- | [<- | []]]].
        -- destruct (Hu m Hin Hrole) as (H1 & H2 & H3).
           split; [exact H1 |]. split; [right; right; exact H2 |].
           intros H. apply in_app_iff in H.
           destruct H as [H | [E | []]]; [exact (H3 H) |].
           apply Hf2. rewrite E. exact H2.
        -- cbn [content id]. split; [exact Hclean |].
           split; [right; left; reflexivity |].
           intros H. apply in_app_iff in H.
           destruct H as [H | [E | []]].
           ++ exact (Hf1 (Hold _ H)).
           ++ apply Hd. symmetry. exact E.
        -- discriminate Hrole.
      * intros p Hin. apply in_app_iff in Hin.
        destruct Hin as [Hin | [<- | []]].
        -- destruct (Hp p Hin) as (H1 & H2 & H3 & H4).
           repeat split; try assumption; try apply H1.
           right. right. exact H4.
        -- cbn [request agentMessageId sentSessionId ChatRequest.message
                ChatRequest.user_id ChatRequest.session_id].
           split; [exact Hclean |].
           split; [apply orString_nonempty; discriminate |].
           split; [reflexivity | left; reflexivity].
    + cbv beta iota delta [step] in Hstep. rewrite Hsend in Hstep.
      injection Hstep as <-. split; assumption.
  - (* Settle *)
    cbv beta iota delta [step] in Hstep.
    destruct (nth_error (inflight s) k) as [p |] eqn:Hk;
      [| discriminate Hstep].
    injection Hstep as <-.
    destruct (settlePatch_keeps p o endTime) as (Hi & Hr & _).
    unfold sendInvariant, inflightIds. cbn [store issued inflight].
    rewrite settle_messages. split.
    + intros m Hin Hrole. apply in_map_iff in Hin.
      destruct Hin as (m0 & <- & Hin).
      assert (Hrole0 : role m0 = user).
      { destruct (String.eqb _ _); [| exact Hrole].
        simpl in Hrole. rewrite Hr in Hrole. exact Hrole. }
      destruct (Hu m0 Hin Hrole0) as (H1 & H2 & H3).
      destruct (String.eqb_spec (id m0) (agentMessageId p)) as [E | _].
      * exfalso. apply H3. rewrite E. unfold inflightIds. apply in_map.
        exact (nth_error_In _ k Hk).
      * split; [exact H1 |]. split; [exact H2 |].
        intros H. apply H3. exact (In_inflightIds_removeNth k s _ H).
    + intros p' Hin. apply Hp. exact (In_removeNth k _ p' Hin).
  - (* Reset *)
    cbv beta iota delta [step] in Hstep.
    destruct (fresh uuid s); [| discriminate Hstep].
    injection Hstep as <-. unfold sendInvariant.
    cbn [store issued inflight resetSession messages]. split.
    + intros m [].
    + intros p Hin. destruct (Hp p Hin) as (H1 & H2 & H3 & H4).
      repeat split; try assumption; try apply H1. right. exact H4.
  - (* Preferences *)
    cbv beta iota delta [step] in Hstep. injection Hstep as <-.
    split; assumption.
  - (* Reload *)
    cbv beta iota delta [step] in Hstep. injection Hstep as <-.
    unfold sendInvariant, inflightIds. cbn [store issued inflight map].
    split.
    + intros m Hin Hrole. destruct (Hu m Hin Hrole) as (H1 & H2 & _).
      split; [exact H1 |]. split; [exact H2 | intros []].
    + intros p [].
Qed.

(** In every run, every user message in the list has the text the input
    component handed over, trimmed and not empty, and so has the message
    of every request in flight; a request always carries a non-empty user
    id (the preference, or ['default_user']) and the session id its
    closure held. *)
Theorem sends_carry_clean_text (evs : list Event) (uuid : string)
    (s : System) :
  run evs (initSystem uuid) = Some s ->
  (forall m, In m (messages (store s)) -> role m = user ->
             content m <> "" /\ trim (content m) = content m) /\
  (forall p, In p (inflight s) ->
             ChatRequest.message (request p) <> "" /\
             trim (ChatRequest.message (request p)) =
               ChatRequest.message (request p) /\
             ChatRequest.user_id (request p) <> "" /\
             ChatRequest.session_id (request p) = Some (sentSessionId p)).
Proof.
  intros Hrun.
  assert (Hinv : sendInvariant s).
  { revert Hrun. generalize (sendInvariant_init uuid).
    generalize (initSystem uuid). induction evs as [| ev evs IH];
      intros s0 H0 Hrun; simpl in Hrun.
    - injection Hrun as <-. exact H0.
    - destruct (step ev s0) as [s1 |] eqn:Hstep; [| discriminate Hrun].
      exact (IH s1 (sendInvariant_step ev s0 s1 H0 Hstep) Hrun). }
  destruct Hinv as [Hu Hp]. split.
  - intros m Hin Hrole. exact (proj1 (Hu m Hin Hrole)).
  - intros p Hin. destruct (Hp p Hin) as ((H1 & H1') & H2 & H3 & _).
    repeat split; assumption.
Qed.

Lemma sends_carry_clean_text_witness :
  exists s,
    run [ Mount "g0" 0; Send "  hello  " (mkSendEnv "u1" 1 "u2" 2 3) ]
        (initSystem "s0") = Some s /\
    map content (messages (store s)) =
      [ "Hello! I'm the Vantage AI assistant. How can I help you today?";
        "hello"; "" ] /\
    (forall m, In m (messages (store s)) -> role m = user ->
               content m <> "" /\ trim (content m) = content m).
Proof.
  eexists. split; [reflexivity |]. split; [reflexivity |].
  exact (proj1 (sends_carry_clean_text
                  [ Mount "g0" 0;
                    Send "  hello  " (mkSendEnv "u1" 1 "u2" 2 3) ]
                  "s0" _ eq_refl)).
Defined.

(** ** The loading flag *)

(** As long as no reset and no reload happens while [isLoading] is [true],
    the flag tells the truth: either nothing is in flight and [isLoading]
    is [false], or exactly one request is in flight, [isLoading] is [true]
    and [streamingMessageId] is the id that request is going to patch. *)
Theorem loading_means_one_request (evs : list Event) (uuid : string)
    (s : System) :
  runCalm evs (initSystem uuid) = Some s ->
  (inflight s = [] /\ isLoading (store s) = false /\
   streamingMessageId (store s) = None) \/
  (exists p, inflight s = [p] /\ isLoading (store s) = true /\
             streamingMessageId (store s) = Some (agentMessageId p)).
Proof.
  intros Hrun.
  pose proof (runCalm_invariant evs _ _ (exchangeInvariant_init uuid) Hrun)
    as Hinv.
  unfold exchangeInvariant in Hinv.
  destruct (inflight s) as [| p [| q rest]].
  - left. destruct Hinv as (H1 & H2 & _). repeat split; assumption.
  - right. exists p. destruct Hinv as (H1 & H2 & _).
    repeat split; assumption.
  - destruct Hinv.
Qed.

Lemma loading_means_one_request_witness :
  exists s p,
    runCalm (firstn 4 orderlyRun) (initSystem "s0") = Some s /\
    inflight s = [p] /\ isLoading (store s) = true /\
    streamingMessageId (store s) = Some (agentMessageId p).
Proof.
  eexists. eexists. split; [reflexivity |].
  destruct (loading_means_one_request (firstn 4 orderlyRun) "s0" _ eq_refl)
    as [(H & _) | (p & H1 & H2 & H3)].
  - discriminate H.
  - injection H1 as <-. repeat split; assumption.
Defined.

(** ** The greeting *)

(** The greeting effect looks at the list its render captured, not at the
    store.  With a non-empty captured list it changes nothing.  With an
    empty one it appends one agent message with the greeting text and no
    streaming flag to whatever the store holds, and touches nothing else.
    A mount after that captures a non-empty list and adds nothing; the
    effect run again for the same render, whose captured list is still
    empty, appends a second greeting.  The [Mount] event is the effect for
    a render that captured the store's list. *)
Theorem mountEffect_greets (captured : list Message) (uuid uuid' : string)
    (now now' : Z) (st : ChatState) :
  let hello := fun (u : string) (n : Z) =>
    mkMessage u agent
      "Hello! I'm the Vantage AI assistant. How can I help you today?"
      n None None None None in
  let st1 := mountEffect [] uuid now st in
  (captured <> [] -> mountEffect captured uuid now st = st) /\
  messages st1 = (messages st ++ [hello uuid now])%list /\
  sessionId st1 = sessionId st /\
  userPreferences st1 = userPreferences st /\
  isLoading st1 = isLoading st /\
  streamingMessageId st1 = streamingMessageId st /\
  mountEffect (messages st1) uuid' now' st1 = st1 /\
  messages (mountEffect [] uuid' now' st1) =
    (messages st ++ [hello uuid now; hello uuid' now'])%list /\
  (forall s s', step (Mount uuid now) s = Some s' ->
                store s' = mountEffect (messages (store s)) uuid now
                             (store s)).
Proof.
  intros hello st1.
  split.
  { destruct captured; [intros H; contradiction H; reflexivity |].
    reflexivity. }
  split; [reflexivity |]. repeat (split; [reflexivity |]).
  split.
  { subst st1. unfold mountEffect, addMessage, set_messages.
    cbn [fst messages]. destruct (messages st); reflexivity. }
  split.
  { subst st1 hello. unfold mountEffect, addMessage, set_messages.
    cbn [fst messages]. rewrite <- app_assoc. reflexivity. }
  intros s s' Hstep. cbv beta iota delta [step] in Hstep.
  unfold mountEffect. destruct (messages (store s)) as [| m0 l0].
  - destruct (fresh uuid s); [| discriminate Hstep].
    injection Hstep as <-. reflexivity.
  - injection Hstep as <-. reflexivity.
Qed.

Lemma mountEffect_greets_witness :
  let hello := fun (u : string) (n : Z) =>
    mkMessage u agent
      "Hello! I'm the Vantage AI assistant. How can I help you today?"
      n None None None None in
  let st1 := mountEffect [] "g0" 5 (initialState "s0") in
  mountEffect (messages sampleThread) "g0" 5 sampleThread = sampleThread /\
  messages st1 = [hello "g0" 5] /\
  mountEffect (messages st1) "g1" 6 st1 = st1 /\
  messages (mountEffect [] "g1" 6 st1) = [hello "g0" 5; hello "g1" 6].
Proof.
  destruct (mountEffect_greets (messages sampleThread) "g0" "g1" 5 6
              sampleThread) as (H1 & _).
  destruct (mountEffect_greets [] "g0" "g1" 5 6 (initialState "s0"))
    as (_ & H2 & _ & _ & _ & _ & H3 & H4 & _).
  split; [apply H1; discriminate |].
  split; [exact H2 |]. split; [exact H3 | exact H4].
Defined.

(** ** What the message list shows *)

Lemma thinking_names_message (sid : option string) (m : Message) :
  isThinking (bubble sid m) = true -> sid = Some (id m).
Proof.
  unfold bubble, isStreamingMessage.
  assert (H : isThinking
                (if streamingNow m &&
                    match sid with
                    | Some i => String.eqb (id m) i
                    | None => false
                    end
                 then ThinkingBubble else ContentBubble (content m)) = true
              -> sid = Some (id m)).
  { destruct (streamingNow m); simpl; [| discriminate].
    destruct sid as [i |]; [| discriminate].
    destruct (String.eqb_spec (id m) i) as [-> | _];
      [reflexivity | discriminate]. }
  destruct (error m) as [e |]; [| exact H].
  destruct (String.eqb e ""); [exact H | discriminate].
Qed.

Lemma no_thinking_elsewhere (sid : option string) (i : string)
    (l : list Message) :
  sid = Some i -> ~ In i (map id l) ->
  filter isThinking (map (bubble sid) l) = [].
Proof.
  intros Hsid. induction l as [| m l IH]; intros Hnotin; [reflexivity |].
  simpl. destruct (isThinking (bubble sid m)) eqn:Hm.
  - exfalso. apply Hnotin. left.
    apply thinking_names_message in Hm. congruence.
  - apply IH. intros Hin. apply Hnotin. right. exact Hin.
Qed.

Lemma thinking_at_most_once (sid : option string) (l : list Message) :
  NoDup (map id l) ->
  (List.length (filter isThinking (map (bubble sid) l)) <= 1)%nat.
Proof.
  induction l as [| m l IH]; intros Hnd; simpl; [lia |].
  inversion Hnd as [| x xs Hnotin Hl]; subst.
  destruct (isThinking (bubble sid m)) eqn:Hm; [| exact (IH Hl)].
  apply thinking_names_message in Hm.
  simpl. rewrite (no_thinking_elsewhere sid (id m) l Hm Hnotin).
  simpl. lia.
Qed.

(** In every run the list shows at most one "Thinking..." loader, also in
    the runs that leave two placeholders streaming: the loader needs the
    id [streamingMessageId] names, and the ids are pairwise distinct. *)
Theorem one_thinking_bubble (evs : list Event) (uuid : string) (s : System) :
  run evs (initSystem uuid) = Some s ->
  (List.length (filter isThinking (renderMessages (store s))) <= 1)%nat.
Proof.
  intros Hrun.
  destruct (issuedInvariant_run evs _ _ (issuedInvariant_init uuid) Hrun)
    as (_ & _ & K3 & _).
  apply thinking_at_most_once. exact K3.
Qed.

Lemma one_thinking_bubble_witness :
  exists s,
    run overlappingRun (initSystem "s0") = Some s /\
    streamingIds (store s) = ["u4"; "u6"] /\
    filter isThinking (renderMessages (store s)) = [ThinkingBubble] /\
    (List.length (filter isThinking (renderMessages (store s))) <= 1)%nat.
Proof.
  eexists. split; [reflexivity |]. split; [reflexivity |].
  split; [reflexivity |].
  exact (one_thinking_bubble overlappingRun "s0" _ eq_refl).
Defined.

Lemma exchange_messages (text : string) (e : SendEnv) (o : Outcome)
    (endTime : Z) (st : ChatState) :
  exists p,
    agentMessageId p = uuid2 e /\
    messages (handleSendMessage text e o endTime st) =
    map (fun msg => if String.eqb (id msg) (uuid2 e)
                    then mergeMessage msg (settlePatch p o endTime)
                    else msg)
        (messages st ++
         [ mkMessage (uuid1 e) user text (now1 e) None None None None;
           mkMessage (uuid2 e) agent "" (now2 e) None None (Some true)
             None ]) /\
    streamingMessageId (handleSendMessage text e o endTime st) = None.
Proof.
  unfold handleSendMessage.
  pose proof (handleSendMessage_begin_store (sessionId st)
                (userPreferences st) text e st) as Hs.
  pose proof (handleSendMessage_begin_pending (sessionId st)
                (userPreferences st) text e st) as Hp.
  destruct (handleSendMessage_begin _ _ text e st) as [st1 p].
  simpl in Hs, Hp. exists p. rewrite settle_messages.
  subst st1 p. simpl. repeat split.
Qed.

(** What the user sees of one exchange.  While the request is in flight
    the user's bubble shows the text and the placeholder shows the
    loader.  After a response the placeholder shows the response text.
    After a failure it shows the error view with the reason, unless the
    reason is the empty string: then it shows an empty content bubble and
    no error. *)
Theorem exchange_bubbles (text : string) (e : SendEnv) (endTime : Z)
    (st : ChatState) :
  let n := List.length (messages st) in
  let waiting :=
    fst (handleSendMessage_begin (sessionId st) (userPreferences st)
           text e st) in
  nth_error (renderMessages waiting) n = Some (ContentBubble text) /\
  nth_error (renderMessages waiting) (n + 1) = Some ThinkingBubble /\
  (forall r,
     nth_error
       (renderMessages (handleSendMessage text e (Resolved r) endTime st))
       (n + 1) = Some (ContentBubble (ChatResponse.response r))) /\
  (forall err,
     nth_error
       (renderMessages (handleSendMessage text e (Rejected err) endTime st))
       (n + 1) =
     Some (if String.eqb (errorText err) "" then ContentBubble ""
           else ErrorBubble (errorText err))).
Proof.
  intros n waiting. subst n waiting.
  rewrite handleSendMessage_begin_store. unfold renderMessages.
  cbn [messages streamingMessageId].
  split; [| split; [| split]].
  - rewrite nth_error_map, nth_error_app2 by lia.
    rewrite Nat.sub_diag. reflexivity.
  - rewrite nth_error_map_snoc2. unfold bubble, isStreamingMessage. simpl.
    rewrite String.eqb_refl. reflexivity.
  - intros r.
    destruct (exchange_messages text e (Resolved r) endTime st)
      as (p & _ & Hm & Hs).
    rewrite Hm, Hs, map_map, nth_error_map_snoc2. simpl.
    rewrite String.eqb_refl. reflexivity.
  - intros err.
    destruct (exchange_messages text e (Rejected err) endTime st)
      as (p & _ & Hm & Hs).
    rewrite Hm, Hs, map_map, nth_error_map_snoc2. simpl.
    rewrite String.eqb_refl. unfold bubble. simpl.
    destruct (String.eqb (errorText err) ""); reflexivity.
Qed.

(** ** The input component *)

(** The send button and the two handlers agree.  The button is enabled
    exactly when [handleSend] would call the controller; the keyboard sends
    only on Enter without Shift, and only what the button would send; and
    once a send is accepted the text and the attachments are cleared, so
    that a second click or Enter right after it sends nothing. *)
Theorem send_paths_agree (key : string) (shiftKey disabled : bool)
    (i : InputState) :
  (sendButtonDisabled disabled i = false <->
   exists c, fst (handleSend disabled i) = Some c) /\
  (forall c i', handleSend disabled i = (Some c, i') ->
     c = trim (message i) /\ c <> "" /\ i' = mkInput "" [] /\
     forall d, handleSend d i' = (None, i') /\
               sendButtonDisabled d i' = true) /\
  (forall c, fst (snd (handleKeyDown key shiftKey disabled i)) = Some c ->
     key = "Enter" /\ shiftKey = false /\
     sendButtonDisabled disabled i = false /\
     handleKeyDown key shiftKey disabled i = (true, handleSend disabled i)).
Proof.
  unfold sendButtonDisabled, handleKeyDown, handleSend.
  destruct (String.eqb_spec (trim (message i)) "") as [E | E];
    destruct disabled; simpl.
  - split; [split; [discriminate | intros [c H]; discriminate H] |].
    split; [intros c i' H; discriminate H |].
    intros c. destruct (_ && _); intros H; discriminate H.
  - split; [split; [discriminate | intros [c H]; discriminate H] |].
    split; [intros c i' H; discriminate H |].
    intros c. destruct (_ && _); intros H; discriminate H.
  - split; [split; [discriminate | intros [c H]; discriminate H] |].
    split; [intros c i' H; discriminate H |].
    intros c. destruct (_ && _); intros H; discriminate H.
  - split; [split; [intros _; eexists; reflexivity | reflexivity] |].
    split.
    + intros c i' H. injection H as <- <-.
      repeat split; try assumption; destruct d; reflexivity.
    + intros c. destruct (String.eqb_spec key "Enter") as [-> | _];
        destruct shiftKey; simpl; intros H; try discriminate H.
      repeat split.
Qed.

Lemma filterIndex_all {A : Type} (keep : nat -> bool) (l : list A) :
  forall i, (forall k, (i <= k)%nat -> keep k = true) ->
            filterIndex keep i l = l.
Proof.
  induction l as [| x l IH]; intros i H; simpl; [reflexivity |].
  rewrite (H i (Nat.le_refl i)). f_equal. apply IH.
  intros k Hk. apply H. lia.
Qed.

Lemma filterIndex_splice {A : Type} (l : list A) :
  forall i n,
  filterIndex (fun k => negb (Nat.eqb k (i + n))) i l =
  (firstn n l ++ skipn (S n) l)%list.
Proof.
  induction l as [| x l IH]; intros i n; simpl.
  - destruct n; reflexivity.
  - destruct n as [| n].
    + rewrite Nat.add_0_r, Nat.eqb_refl. simpl.
      apply filterIndex_all. intros k Hk.
      apply negb_true_iff. apply Nat.eqb_neq. lia.
    + assert (Hne : Nat.eqb i (i + S n) = false)
        by (apply Nat.eqb_neq; lia).
      rewrite Hne. simpl. f_equal.
      replace (i + S n)%nat with (S i + n)%nat by lia. apply IH.
Qed.

(** [removeFile] takes out the attachment at the index and nothing else:
    what is left is the files before it followed by the files after it,
    the text is untouched, an index past the end changes nothing, and
    removing the file that was attached last undoes the attachment. *)
Theorem removeFile_splice (index : nat) (i : InputState) :
  attachedFiles (removeFile index i) =
    (firstn index (attachedFiles i) ++ skipn (S index) (attachedFiles i))%list
  /\ message (removeFile index i) = message i
  /\ ((index < List.length (attachedFiles i))%nat ->
      S (List.length (attachedFiles (removeFile index i))) =
      List.length (attachedFiles i))
  /\ ((List.length (attachedFiles i) <= index)%nat -> removeFile index i = i)
  /\ (forall f,
        removeFile (List.length (attachedFiles i))
          (handleFileSelect (Some [f]) i) = i).
Proof.
  assert (H : forall n (files : list string),
            filterIndex (fun k => negb (Nat.eqb k n)) 0 files =
            (firstn n files ++ skipn (S n) files)%list).
  { intros n files. exact (filterIndex_splice files 0 n). }
  unfold removeFile. simpl. rewrite H.
  split; [reflexivity |]. split; [reflexivity |]. split; [| split].
  - intros Hlt. rewrite length_app, length_firstn, length_skipn. lia.
  - intros Hge. rewrite firstn_all2 by exact Hge.
    rewrite skipn_all2 by lia. rewrite app_nil_r. destruct i; reflexivity.
  - intros f. rewrite H.
    rewrite firstn_app, Nat.sub_diag, firstn_all. cbn [firstn].
    rewrite skipn_all2 by (rewrite length_app; simpl; lia).
    rewrite !app_nil_r. destruct i; reflexivity.
Qed.

Lemma removeFile_splice_witness :
  let i := mkInput "draft" ["a.txt"; "b.txt"; "c.txt"] in
  attachedFiles (removeFile 1 i) = ["a.txt"; "c.txt"] /\
  removeFile 3 i = i /\
  removeFile 3 (handleFileSelect (Some ["d.txt"]) i) = i.
Proof.
  destruct (removeFile_splice 1 (mkInput "draft" ["a.txt"; "b.txt"; "c.txt"]))
    as (H1 & _).
  destruct (removeFile_splice 3 (mkInput "draft" ["a.txt"; "b.txt"; "c.txt"]))
    as (_ & _ & _ & H4 & H5).
  split; [exact H1 |]. split; [apply H4; simpl; lia | exact (H5 "d.txt")].
Defined.

(** ** The response interceptor *)

Lemma append_nonempty_l (a b : string) : a <> "" -> (a ++ b)%string <> "".
Proof. destruct a; [contradiction | discriminate]. Qed.

Lemma join_nonempty (sep x : string) (rest : list string) :
  x <> "" -> join sep (x :: rest) <> "".
Proof.
  intros Hx. simpl. destruct rest; [exact Hx |].
  apply append_nonempty_l. exact Hx.
Qed.

Lemma validationErrorMessage_empty_iff (l : list ValidationError) :
  validationErrorMessage l = "" <-> l = [].
Proof.
  split; [| intros ->; reflexivity].
  destruct l as [| err rest]; [reflexivity |].
  intros H. exfalso. revert H. unfold validationErrorMessage.
  cbn [map]. apply join_nonempty.
  destruct (join "." (map locItemToString (loc err))); discriminate.
Qed.

Lemma fallbackMessage_empty_iff (data : option ErrorData) :
  fallbackMessage data "An unexpected error occurred" = "" <->
  detailOf data = Some (DetailErrors []).
Proof.
  unfold fallbackMessage.
  destruct (detailOf data) as [[s | l] |].
  - split; [| discriminate]. intros H. exfalso.
    destruct (String.eqb_spec s ""); [| contradiction].
    revert H. apply orString_nonempty. discriminate.
  - split.
    + destruct l as [| x rest]; [reflexivity |].
      intros H. exfalso. revert H. cbn [map].
      apply join_nonempty. discriminate.
    + intros H. injection H as ->. reflexivity.
  - split; [| discriminate]. intros H. exfalso. revert H.
    apply orString_nonempty. discriminate.
Qed.

(** The [switch]: its message is empty only for a status without a
    text of its own and a [detail] that is the empty array. *)
Lemma statusMessage_empty_iff (status : Z) (data : option ErrorData) :
  fst (statusMessage status data) = "" <->
  detailOf data = Some (DetailErrors []) /\
  status <> 400 /\ status <> 401 /\ status <> 403 /\ status <> 404 /\
  status <> 500 /\ status <> 502 /\ status <> 503 /\ status <> 504.
Proof.
  unfold statusMessage.
  destruct (Z.eqb_spec status 400) as [E | N400];
    [split; [discriminate | intros H; exfalso; lia] |].
  destruct (Z.eqb_spec status 401) as [E | N401];
    [split; [discriminate | intros H; exfalso; lia] |].
  destruct (Z.eqb_spec status 403) as [E | N403];
    [split; [discriminate | intros H; exfalso; lia] |].
  destruct (Z.eqb_spec status 404) as [E | N404];
    [split; [discriminate | intros H; exfalso; lia] |].
  destruct (Z.eqb_spec status 422) as [E | N422].
  { cbn [fst]. split.
    - intros H. split; [| repeat split; lia].
      destruct (detailOf data) as [[s | l] |]; try discriminate H.
      apply validationErrorMessage_empty_iff in H. subst l. reflexivity.
    - intros (Hd & _). rewrite Hd. reflexivity. }
  destruct (Z.eqb_spec status 500) as [E | N500];
    [split; [discriminate | intros H; exfalso; lia] |].
  destruct (Z.eqb_spec status 502) as [E | N502];
    [split; [discriminate | intros H; exfalso; lia] |].
  destruct (Z.eqb_spec status 503) as [E | N503];
    [split; [discriminate | intros H; exfalso; lia] |].
  destruct (Z.eqb_spec status 504) as [E | N504];
    [split; [discriminate | intros H; exfalso; lia] |].
  cbn [orb fst]. rewrite fallbackMessage_empty_iff. split.
  - intros H. repeat split; assumption.
  - intros (Hd & _). exact Hd.
Qed.

Lemma responseInterceptor_message (error : AxiosError.t) (status : Z)
    (data : option ErrorData) :
  AxiosError.response error = Some (status, data) ->
  ApiError.message (snd (responseInterceptor error)) =
  fst (statusMessage status data).
Proof.
  intros H. unfold responseInterceptor. rewrite H.
  destruct (statusMessage status data). reflexivity.
Qed.

(** Without an answer from the server the message is one of three fixed
    texts. *)
Lemma responseInterceptor_network_message (error : AxiosError.t) :
  AxiosError.response error = None ->
  ApiError.message (snd (responseInterceptor error)) <> "".
Proof.
  intros H. unfold responseInterceptor. rewrite H.
  cbn [snd ApiError.message].
  destruct (AxiosError.request error); [| discriminate].
  destruct (AxiosError.code error) as [c |]; [| discriminate].
  destruct (String.eqb c "ECONNABORTED"); discriminate.
Qed.

(** The message of the [ApiError] the interceptor rejects with.  Without
    an answer from the server it is one of three fixed texts, chosen by
    [error.request] and [error.code].  With an answer of status 400, 401,
    403, 404, 500, 502, 503 or 504 it is the fixed text of that status,
    whatever the body.  With an answer of another status whose [detail] is
    the empty array it is the empty string. *)
Theorem interceptor_message_by_status (error : AxiosError.t) :
  let m := ApiError.message (snd (responseInterceptor error)) in
  (AxiosError.response error = None ->
   (AxiosError.request error = false -> m = "An unexpected error occurred") /\
   (AxiosError.request error = true ->
    AxiosError.code error = Some "ECONNABORTED" ->
    m = "Request timeout. Please check your connection and try again.") /\
   (AxiosError.request error = true ->
    AxiosError.code error <> Some "ECONNABORTED" ->
    m = "Unable to connect to the server. Please check your internet connection.")) /\
  (forall status data,
     AxiosError.response error = Some (status, data) ->
     (status = 400 -> m = "Bad request. Please check your input.") /\
     (status = 401 -> m = "Unauthorized. Please login again.") /\
     (status = 403 ->
      m = "You do not have permission to perform this action.") /\
     (status = 404 -> m = "The requested resource was not found.") /\
     (status = 500 ->
      m = "Internal server error. Please try again later.") /\
     (status = 502 \/ status = 503 \/ status = 504 ->
      m = "Service temporarily unavailable. Please try again later.") /\
     (status <> 400 -> status <> 401 -> status <> 403 -> status <> 404 ->
      status <> 500 -> status <> 502 -> status <> 503 -> status <> 504 ->
      detailOf data = Some (DetailErrors []) -> m = "")).
Proof.
  intros m. subst m. split.
  - intros Hresp. unfold responseInterceptor. rewrite Hresp.
    cbn [snd ApiError.message]. split; [| split].
    + intros ->. reflexivity.
    + intros -> ->. reflexivity.
    + intros -> Hcode. destruct (AxiosError.code error) as [c |];
        [| reflexivity].
      destruct (String.eqb_spec c "ECONNABORTED") as [-> | _];
        [contradiction Hcode; reflexivity | reflexivity].
  - intros status data Hresp.
    rewrite (responseInterceptor_message error status data Hresp).
    split; [intros ->; reflexivity |].
    split; [intros ->; reflexivity |].
    split; [intros ->; reflexivity |].
    split; [intros ->; reflexivity |].
    split; [intros ->; reflexivity |].
    split; [intros [-> | [-> | ->]]; reflexivity |].
    intros H400 H401 H403 H404 H500 H502 H503 H504 Hd.
    apply statusMessage_empty_iff. repeat split; assumption.
Qed.

Lemma responseInterceptor_client_error (error : AxiosError.t) (status : Z)
    (data : option ErrorData) :
  AxiosError.response error = Some (status, data) ->
  isClientError (RaisedApiError (snd (responseInterceptor error))) =
  negb (Z.eqb status 0) && (400 <=? status) && (status <? 500).
Proof.
  intros H. unfold responseInterceptor. rewrite H.
  destruct (statusMessage status data). reflexivity.
Qed.

(** A rejection by the interceptor counts as a client error for
    [retryRequest] exactly when the server answered with a status from 400
    to 499; the warning notification is the one for status 422. *)
Theorem interceptor_classification (error : AxiosError.t) :
  (isClientError (RaisedApiError (snd (responseInterceptor error))) = true
   <-> exists status data,
         AxiosError.response error = Some (status, data) /\
         400 <= status < 500) /\
  (fst (responseInterceptor error) = NotifyWarning
   <-> exists data, AxiosError.response error = Some (422, data)) /\
  ApiError.status (snd (responseInterceptor error)) =
    option_map fst (AxiosError.response error).
Proof.
  unfold responseInterceptor.
  destruct (AxiosError.response error) as [[status data] |].
  - destruct (statusMessage status data) as [m t] eqn:Hsm.
    cbn [fst snd isClientError ApiError.status option_map].
    split; [| split; [| reflexivity]].
    + split.
      * intros H. exists status, data. split; [reflexivity |].
        apply andb_true_iff in H. destruct H as [H H2].
        apply andb_true_iff in H. destruct H as [_ H1].
        apply Z.leb_le in H1. apply Z.ltb_lt in H2. lia.
      * intros (s & d & H & Hr). injection H as <- <-.
        apply andb_true_iff. split; [apply andb_true_iff; split |].
        -- apply negb_true_iff. apply Z.eqb_neq. lia.
        -- apply Z.leb_le. lia.
        -- apply Z.ltb_lt. lia.
    + unfold statusMessage in Hsm.
      destruct (Z.eqb_spec status 422) as [-> | N].
      * simpl in Hsm. injection Hsm as _ <-.
        split; [intros _; exists data; reflexivity | reflexivity].
      * split.
        -- intros ->. exfalso. revert Hsm.
           repeat match goal with
                  | |- context [if ?b then _ else _] => destruct b
                  end; intros H; discriminate H.
        -- intros (d & H). injection H as -> _. contradiction.
  - cbn [fst snd isClientError ApiError.status option_map].
    split; [| split; [| reflexivity]].
    + split; [discriminate | intros (s & d & H & _); discriminate H].
    + split; [discriminate | intros (d & H); discriminate H].
Qed.

(** ** Retrying a request *)

Lemma retryLoop_spec {T : Type} (request : nat -> Attempt T)
    (maxRetries initialDelay : Z) (remaining : nat) :
  forall (i : nat) (lastError : option Raised) (waited : list Z),
  maxRetries = Z.of_nat (i + remaining) ->
  (0 < remaining)%nat ->
  let r := retryLoop request maxRetries initialDelay remaining i lastError
             waited in
  (i < calls r <= i + remaining)%nat /\
  delays r =
    (waited ++
     map (fun k => initialDelay * 2 ^ Z.of_nat k)
         (seq i (pred (calls r) - i)))%list /\
  (forall k, (i <= k < pred (calls r))%nat ->
             exists e, request k = Failed e /\ isClientError e = false) /\
  match outcome r with
  | inl v => request (pred (calls r)) = Fulfilled v
  | inr None => False
  | inr (Some e) =>
      request (pred (calls r)) = Failed e /\
      (isClientError e = true \/
       (isClientError e = false /\ calls r = (i + remaining)%nat))
  end.
Proof.
  induction remaining as [| rem IH]; intros i lastError waited Hmax Hpos;
    [lia |].
  cbn [retryLoop]. destruct (request i) as [v | e] eqn:Hreq.
  - cbn [calls delays outcome pred]. rewrite Nat.sub_diag. cbn [seq map].
    rewrite app_nil_r.
    split; [lia |]. split; [reflexivity |].
    split; [intros k Hk; lia | exact Hreq].
  - destruct (isClientError e) eqn:Hce.
    + cbn [calls delays outcome pred]. rewrite Nat.sub_diag. cbn [seq map].
      rewrite app_nil_r.
      split; [lia |]. split; [reflexivity |].
      split; [intros k Hk; lia |].
      split; [exact Hreq | left; exact Hce].
    + destruct rem as [| rem'].
      * cbn [retryLoop calls delays outcome pred].
        rewrite Nat.sub_diag. cbn [seq map].
        destruct (Z.ltb_spec (Z.of_nat i) (maxRetries - 1)) as [Hlt | _];
          [lia |].
        rewrite app_nil_r.
        split; [lia |]. split; [reflexivity |].
        split; [intros k Hk; lia |].
        split; [exact Hreq | right; split; [exact Hce | lia]].
      * destruct (Z.ltb_spec (Z.of_nat i) (maxRetries - 1)) as [_ | Hge];
          [| lia].
        pose proof (IH (S i) (Some e)
                      (waited ++ [initialDelay * 2 ^ Z.of_nat i])%list)
          as H.
        cbv zeta in H.
        set (r := retryLoop request maxRetries initialDelay (S rem') (S i)
                    (Some e) _) in *.
        destruct H as (Hc & Hd & Hprev & Hout); [lia | lia |].
        split; [lia |]. split; [| split].
        -- rewrite Hd, <- app_assoc. f_equal.
           replace (pred (calls r) - i)%nat
             with (S (pred (calls r) - S i))%nat by lia.
           reflexivity.
        -- intros k Hk. destruct (Nat.eq_dec k i) as [-> | Hne].
           ++ exists e. split; [exact Hreq | exact Hce].
           ++ apply Hprev. lia.
        -- destruct (outcome _) as [v | [e' |]]; [exact Hout | | exact Hout].
           destruct Hout as [H1 [H2 | [H2 H3]]].
           ++ split; [exact H1 | left; exact H2].
           ++ split; [exact H1 | right; split; [exact H2 | lia]].
Qed.

Lemma retryRequest_none {T : Type} (request : nat -> Attempt T)
    (maxRetries initialDelay : Z) :
  maxRetries <= 0 ->
  retryRequest request maxRetries initialDelay = mkRetryRun (inr None) 0 [].
Proof.
  intros H. unfold retryRequest.
  replace (Z.to_nat maxRetries) with 0%nat by lia. reflexivity.
Qed.

Lemma retryRequest_spec {T : Type} (request : nat -> Attempt T)
    (maxRetries initialDelay : Z) :
  0 < maxRetries ->
  let r := retryRequest request maxRetries initialDelay in
  (0 < calls r <= Z.to_nat maxRetries)%nat /\
  delays r =
    map (fun k => initialDelay * 2 ^ Z.of_nat k) (seq 0 (pred (calls r))) /\
  (forall k, (k < pred (calls r))%nat ->
             exists e, request k = Failed e /\ isClientError e = false) /\
  match outcome r with
  | inl v => request (pred (calls r)) = Fulfilled v
  | inr None => False
  | inr (Some e) =>
      request (pred (calls r)) = Failed e /\
      (isClientError e = true \/
       (isClientError e = false /\ calls r = Z.to_nat maxRetries))
  end.
Proof.
  intros Hpos. unfold retryRequest.
  destruct (retryLoop_spec request maxRetries initialDelay
              (Z.to_nat maxRetries) 0 None []) as (Hc & Hd & Hprev & Hout);
    [lia | lia |].
  split; [exact Hc |]. split; [| split; [| exact Hout]].
  - rewrite Hd, Nat.sub_0_r. reflexivity.
  - intros k Hk. apply Hprev. lia.
Qed.

(** [retryRequest] calls the request at most [maxRetries] times, waits
    between two calls and never after the last one, and the wait before
    retry number [k] is [initialDelay * 2^(k-1)]: the delays are
    [initialDelay], twice that, four times that, one fewer than there were
    calls. *)
Theorem retryRequest_schedule {T : Type} (request : nat -> Attempt T)
    (maxRetries initialDelay : Z) :
  let r := retryRequest request maxRetries initialDelay in
  (calls r <= Z.to_nat maxRetries)%nat /\
  List.length (delays r) = pred (calls r) /\
  delays r =
    map (fun k => initialDelay * 2 ^ Z.of_nat k) (seq 0 (pred (calls r))).
Proof.
  destruct (Z.le_gt_cases maxRetries 0) as [Hle | Hgt].
  - rewrite (retryRequest_none request maxRetries initialDelay Hle).
    simpl. repeat split. lia.
  - destruct (retryRequest_spec request maxRetries initialDelay)
      as (Hc & Hd & _); [lia |].
    intros r. subst r. split; [lia |]. split; [| exact Hd].
    rewrite Hd at 1. rewrite length_map, length_seq. reflexivity.
Qed.

(** What [retryRequest] ends with.  A returned value is the value of the
    last call; a thrown error is the error of the last call, and that call
    either failed with a client error (an [ApiError] with a status from 400
    to 499) or was call number [maxRetries]; every call before the last
    failed with an error that is not a client error.  The loop ends with no
    error caught exactly when [maxRetries] is at most zero, and then the
    request was never called.  So [undefined] is thrown in two cases only:
    no call was made, or all [maxRetries] calls were made and the last one
    rejected with [undefined]. *)
Theorem retryRequest_outcome {T : Type} (request : nat -> Attempt T)
    (maxRetries initialDelay : Z) :
  let r := retryRequest request maxRetries initialDelay in
  (forall k, (k < pred (calls r))%nat ->
             exists e, request k = Failed e /\ isClientError e = false) /\
  (forall v, outcome r = inl v -> request (pred (calls r)) = Fulfilled v) /\
  (forall e, outcome r = inr (Some e) ->
             request (pred (calls r)) = Failed e /\
             (isClientError e = true \/ calls r = Z.to_nat maxRetries)) /\
  (outcome r = inr None <-> maxRetries <= 0) /\
  (maxRetries <= 0 -> calls r = 0%nat) /\
  (throwsUndefined r <->
   maxRetries <= 0 \/
   (calls r = Z.to_nat maxRetries /\
    request (pred (calls r)) = Failed (RaisedOther JsUndefined))).
Proof.
  destruct (Z.le_gt_cases maxRetries 0) as [Hle | Hgt].
  - rewrite (retryRequest_none request maxRetries initialDelay Hle).
    unfold throwsUndefined. simpl.
    split; [intros k Hk; lia |].
    split; [discriminate |]. split; [discriminate |].
    split; [split; [intros _; exact Hle | reflexivity] |].
    split; [reflexivity |].
    split; [intros _; left; exact Hle | intros _; left; reflexivity].
  - destruct (retryRequest_spec request maxRetries initialDelay)
      as (Hc & _ & Hprev & Hout); [lia |].
    intros r. subst r. unfold throwsUndefined. split; [exact Hprev |].
    destruct (outcome _) as [v | [e |]].
    + split; [intros v' H; injection H as <-; exact Hout |].
      split; [discriminate |]. split; [split; [discriminate | lia] |].
      split; [lia |]. split.
      * intros [H | H]; discriminate H.
      * intros [H | [_ H]]; [lia |]. rewrite H in Hout. discriminate Hout.
    + split; [discriminate |]. split.
      * intros e' H. injection H as <-. destruct Hout as [H1 [H2 | [_ H2]]].
        -- split; [exact H1 | left; exact H2].
        -- split; [exact H1 | right; exact H2].
      * split; [split; [discriminate | lia] |]. split; [lia |]. split.
        -- intros [H | H]; [discriminate H |]. injection H as ->.
           right. destruct Hout as [H1 [H2 | [_ H2]]].
           ++ discriminate H2.
           ++ split; [exact H2 | exact H1].
        -- intros [H | [_ H]]; [lia |]. right.
           destruct Hout as [H1 _]. rewrite H in H1. injection H1 as <-.
           reflexivity.
    + destruct Hout.
Qed.

(** A request that rejects with [undefined] every time: [undefined] is
    thrown after all the calls. *)
Example retryRequest_rejecting_undefined :
  let r := retryRequest
             (fun _ : nat => Failed (T := string) (RaisedOther JsUndefined))
             3 1000 in
  calls r = 3%nat /\ delays r = [1000; 2000] /\ throwsUndefined r /\
  outcome r <> inr None.
Proof.
  simpl. repeat split; [right; reflexivity | discriminate].
Qed.

Lemma retryRun_eq {T : Type} (r : RetryRun T) (o : T + option Raised)
    (c : nat) (d : list Z) :
  outcome r = o -> calls r = c -> delays r = d -> r = mkRetryRun o c d.
Proof. destruct r. simpl. intros -> -> ->. reflexivity. Qed.

(** Where the last call is: at the first attempt that succeeds or fails
    with a client error. *)
Lemma retryRequest_stops_at {T : Type} (request : nat -> Attempt T)
    (maxRetries initialDelay : Z) (k : nat) :
  (k < Z.to_nat maxRetries)%nat ->
  (forall j, (j < k)%nat ->
             exists e, request j = Failed e /\ isClientError e = false) ->
  (forall e, request k = Failed e -> isClientError e = true) ->
  pred (calls (retryRequest request maxRetries initialDelay)) = k.
Proof.
  intros Hk Hprefix Hdecisive.
  destruct (retryRequest_spec request maxRetries initialDelay)
    as (Hc & _ & Hprev & Hout); [lia |].
  set (r := retryRequest request maxRetries initialDelay) in *.
  destruct (Nat.lt_trichotomy (pred (calls r)) k) as [Hlt | [E | Hgt]];
    [| exact E |].
  - exfalso. destruct (Hprefix _ Hlt) as (e & He & Hce).
    destruct (outcome r) as [v | [e' |]].
    + rewrite He in Hout. discriminate Hout.
    + destruct Hout as [H1 [H2 | [_ H2]]].
      * rewrite He in H1. injection H1 as <-. rewrite Hce in H2.
        discriminate H2.
      * lia.
    + exact Hout.
  - exfalso. destruct (Hprev k Hgt) as (e & He & Hce).
    rewrite (Hdecisive e He) in Hce. discriminate Hce.
Qed.

(** The first attempt that succeeds or fails with a client error decides:
    when the attempts before number [k] fail with other errors,
    a success at [k] is returned and a client error at [k] is rethrown as
    it is, after [k + 1] calls and the [k] delays between them; no further
    call is made. *)
Theorem retryRequest_decisive {T : Type} (request : nat -> Attempt T)
    (maxRetries initialDelay : Z) (k : nat) :
  (k < Z.to_nat maxRetries)%nat ->
  (forall j, (j < k)%nat ->
             exists e, request j = Failed e /\ isClientError e = false) ->
  (forall v, request k = Fulfilled v ->
     retryRequest request maxRetries initialDelay =
     mkRetryRun (inl v) (S k)
       (map (fun j => initialDelay * 2 ^ Z.of_nat j) (seq 0 k))) /\
  (forall e, request k = Failed e -> isClientError e = true ->
     retryRequest request maxRetries initialDelay =
     mkRetryRun (inr (Some e)) (S k)
       (map (fun j => initialDelay * 2 ^ Z.of_nat j) (seq 0 k))).
Proof.
  intros Hk Hprefix.
  destruct (retryRequest_spec request maxRetries initialDelay)
    as (Hc & Hd & _ & Hout); [lia |].
  split.
  - intros v Hv.
    assert (Hlast : pred (calls (retryRequest request maxRetries
                                   initialDelay)) = k).
    { apply retryRequest_stops_at; try assumption.
      intros e He. rewrite Hv in He. discriminate He. }
    rewrite Hlast in Hd, Hout. apply retryRun_eq; [| lia | exact Hd].
    destruct (outcome _) as [v' | [e |]].
    + rewrite Hv in Hout. injection Hout as <-. reflexivity.
    + destruct Hout as [H _]. rewrite Hv in H. discriminate H.
    + destruct Hout.
  - intros e He Hce.
    assert (Hlast : pred (calls (retryRequest request maxRetries
                                   initialDelay)) = k).
    { apply retryRequest_stops_at; try assumption.
      intros e' He'. rewrite He in He'. injection He' as <-. exact Hce. }
    rewrite Hlast in Hd, Hout. apply retryRun_eq; [| lia | exact Hd].
    destruct (outcome _) as [v' | [e' |]].
    + rewrite He in Hout. discriminate Hout.
    + destruct Hout as [H _]. rewrite He in H. injection H as <-.
      reflexivity.
    + destruct Hout.
Qed.

Lemma retryRequest_decisive_witness :
  let flaky := fun k : nat =>
    match k with
    | O => Failed (RaisedApiError (ApiError.mk "down" (Some 503)))
    | S O => Failed (RaisedOther JsNull)
    | _ => Fulfilled "ok"
    end in
  retryRequest flaky 3 1000 = mkRetryRun (inl "ok") 3 [1000; 2000].
Proof.
  apply (proj1 (retryRequest_decisive
                  (fun k : nat =>
                     match k with
                     | O => Failed (RaisedApiError
                                      (ApiError.mk "down" (Some 503)))
                     | S O => Failed (RaisedOther JsNull)
                     | _ => Fulfilled "ok"
                     end) 3 1000 2 ltac:(simpl; lia)
                  ltac:(intros [| [| j]] Hj;
                        [eexists; split; reflexivity
                        | eexists; split; reflexivity | lia]))).
  reflexivity.
Defined.

Lemma sumZ_app (a b : list Z) : sumZ (a ++ b) = sumZ a + sumZ b.
Proof. induction a as [| x a IH]; simpl; [reflexivity | lia]. Qed.

Lemma backoff_sum (d : Z) (m : nat) :
  sumZ (map (fun k => d * 2 ^ Z.of_nat k) (seq 0 m)) =
  d * (2 ^ Z.of_nat m - 1).
Proof.
  induction m as [| m IH].
  - simpl. lia.
  - rewrite seq_S, map_app, sumZ_app, IH. cbn [map sumZ Nat.add].
    rewrite Nat2Z.inj_succ, Z.pow_succ_r by lia. lia.
Qed.

(** When every attempt fails with an error that is not a client error,
    [retryRequest] makes all [maxRetries] calls, throws the error of the
    last one, and has waited [initialDelay * (2^(maxRetries-1) - 1)] in
    total. *)
Theorem retryRequest_exhausted {T : Type} (request : nat -> Attempt T)
    (maxRetries initialDelay : Z) :
  0 < maxRetries ->
  (forall k, (k < Z.to_nat maxRetries)%nat ->
             exists e, request k = Failed e /\ isClientError e = false) ->
  let r := retryRequest request maxRetries initialDelay in
  calls r = Z.to_nat maxRetries /\
  (exists e, request (pred (Z.to_nat maxRetries)) = Failed e /\
             outcome r = inr (Some e)) /\
  sumZ (delays r) = initialDelay * (2 ^ (maxRetries - 1) - 1).
Proof.
  intros Hpos Hall.
  destruct (retryRequest_spec request maxRetries initialDelay Hpos)
    as (Hc & Hd & _ & Hout).
  set (r := retryRequest request maxRetries initialDelay) in *.
  assert (Hlast : (pred (calls r) < Z.to_nat maxRetries)%nat) by lia.
  destruct (Hall _ Hlast) as (e & He & Hce).
  assert (Hcalls : calls r = Z.to_nat maxRetries /\ outcome r = inr (Some e)).
  { destruct (outcome r) as [v | [e' |]].
    - rewrite He in Hout. discriminate Hout.
    - destruct Hout as [H1 H2]. rewrite He in H1. injection H1 as <-.
      destruct H2 as [H2 | [_ H2]].
      + rewrite Hce in H2. discriminate H2.
      + split; [exact H2 | reflexivity].
    - destruct Hout. }
  destruct Hcalls as [Hcalls Ho]. cbv zeta.
  split; [exact Hcalls |]. split.
  - exists e. rewrite <- Hcalls. split; [exact He | exact Ho].
  - rewrite Hd, backoff_sum, Hcalls.
    replace (Z.of_nat (pred (Z.to_nat maxRetries))) with (maxRetries - 1)
      by lia.
    reflexivity.
Qed.

Lemma retryRequest_exhausted_witness :
  let down := fun _ : nat =>
    Failed (T := string) (RaisedApiError (ApiError.mk "down" (Some 503))) in
  calls (retryRequest down 3 1000) = 3%nat /\
  delays (retryRequest down 3 1000) = [1000; 2000] /\
  sumZ (delays (retryRequest down 3 1000)) = 3000.
Proof.
  destruct (retryRequest_exhausted
              (fun _ : nat =>
                 Failed (T := string)
                   (RaisedApiError (ApiError.mk "down" (Some 503))))
              3 1000 ltac:(lia)
              ltac:(intros k _; eexists; split; reflexivity))
    as (H1 & _ & H3).
  split; [exact H1 |]. split; [reflexivity | exact H3].
Defined.

(** ** The service, the controller and the list together *)

(** [retryRequest] around a request that goes through the interceptor:
    a response with a status from 400 to 499 is never retried (one call,
    no delay, the [ApiError] rethrown), whereas a status of 500 or more is
    retried, after [initialDelay], whenever [maxRetries] allows a second
    call. *)
Theorem retry_after_interceptor {T : Type} (request : nat -> Attempt T)
    (maxRetries initialDelay : Z) (error : AxiosError.t) (status : Z)
    (data : option ErrorData) :
  AxiosError.response error = Some (status, data) ->
  request 0%nat = Failed (RaisedApiError (snd (responseInterceptor error))) ->
  (400 <= status < 500 -> 0 < maxRetries ->
   retryRequest request maxRetries initialDelay =
   mkRetryRun
     (inr (Some (RaisedApiError (snd (responseInterceptor error))))) 1 [])
  /\
  (500 <= status -> 1 < maxRetries ->
   (2 <= calls (retryRequest request maxRetries initialDelay))%nat /\
   hd_error (delays (retryRequest request maxRetries initialDelay)) =
   Some initialDelay).
Proof.
  intros Hresp Hreq.
  pose proof (responseInterceptor_client_error error status data Hresp)
    as Hce.
  split.
  - intros Hr Hpos.
    assert (Hclient : isClientError
                        (RaisedApiError (snd (responseInterceptor error)))
                      = true).
    { rewrite Hce. apply andb_true_iff.
      split; [apply andb_true_iff; split |].
      - apply negb_true_iff. apply Z.eqb_neq. lia.
      - apply Z.leb_le. lia.
      - apply Z.ltb_lt. lia. }
    destruct (retryRequest_spec request maxRetries initialDelay Hpos)
      as (Hc & Hd & _ & Hout).
    assert (Hlast : pred (calls (retryRequest request maxRetries
                                   initialDelay)) = 0%nat).
    { apply retryRequest_stops_at; [lia | intros j Hj; lia |].
      intros e He. rewrite Hreq in He. injection He as <-. exact Hclient. }
    rewrite Hlast in Hd, Hout. apply retryRun_eq; [| lia | exact Hd].
    destruct (outcome _) as [v | [e |]].
    + rewrite Hreq in Hout. discriminate Hout.
    + destruct Hout as [H _]. rewrite Hreq in H. injection H as <-.
      reflexivity.
    + destruct Hout.
  - intros Hr Hmax.
    assert (Hnot : isClientError
                     (RaisedApiError (snd (responseInterceptor error)))
                   = false).
    { rewrite Hce. apply andb_false_iff. right. apply Z.ltb_ge. lia. }
    destruct (retryRequest_spec request maxRetries initialDelay)
      as (Hc & Hd & _ & Hout); [lia |].
    set (r := retryRequest request maxRetries initialDelay) in *.
    assert (H2 : (2 <= calls r)%nat).
    { destruct (Nat.le_gt_cases 2 (calls r)) as [H | H]; [exact H |].
      exfalso. assert (H1 : pred (calls r) = 0%nat) by lia.
      rewrite H1 in Hout.
      destruct (outcome r) as [v | [e |]].
      - rewrite Hreq in Hout. discriminate Hout.
      - destruct Hout as [He [Hcl | [_ Hn]]].
        + rewrite Hreq in He. injection He as <-. rewrite Hnot in Hcl.
          discriminate Hcl.
        + lia.
      - exact Hout. }
    split; [exact H2 |]. rewrite Hd.
    destruct (pred (calls r)) as [| n] eqn:Hp; [lia |].
    simpl. f_equal. lia.
Qed.

Lemma retry_after_interceptor_witness :
  let error :=
    AxiosError.mk (Some (404, None)) true (Some "ERR_BAD_REQUEST") in
  let rejected := RaisedApiError (snd (responseInterceptor error)) in
  retryRequest (fun _ : nat => Failed (T := string) rejected) 3 1000 =
  mkRetryRun (inr (Some rejected)) 1 [].
Proof.
  apply (proj1 (retry_after_interceptor
                  (fun _ : nat =>
                     Failed (T := string)
                       (RaisedApiError
                          (snd (responseInterceptor
                                  (AxiosError.mk (Some (404, None)) true
                                     (Some "ERR_BAD_REQUEST"))))))
                  3 1000
                  (AxiosError.mk (Some (404, None)) true
                     (Some "ERR_BAD_REQUEST"))
                  404 None eq_refl eq_refl));
    lia.
Defined.

(** A send that fails in the interceptor, seen from the list.  The
    placeholder shows the error view with the interceptor's message
    whenever that message is not empty, as it is for every network failure
    and for every answer of status 400, 401, 403, 404, 500, 502, 503 or
    504; when the message is empty, as it is for an answer of another
    status whose [detail] is the empty array, the bubble shows empty
    content and no sign of the failure. *)
Theorem failed_send_bubble (text : string) (e : SendEnv) (endTime : Z)
    (st : ChatState) (error : AxiosError.t) :
  let reason := ApiError.message (snd (responseInterceptor error)) in
  let shown :=
    nth_error
      (renderMessages
         (handleSendMessage text e (Rejected (ThrownError reason)) endTime
            st))
      (List.length (messages st) + 1) in
  (reason <> "" -> shown = Some (ErrorBubble reason)) /\
  (reason = "" -> shown = Some (ContentBubble "")) /\
  (AxiosError.response error = None ->
   reason <> "" /\ shown = Some (ErrorBubble reason)) /\
  (forall status data,
     AxiosError.response error = Some (status, data) ->
     (status = 400 \/ status = 401 \/ status = 403 \/ status = 404 \/
      status = 500 \/ status = 502 \/ status = 503 \/ status = 504 ->
      reason <> "" /\ shown = Some (ErrorBubble reason)) /\
     (status <> 400 -> status <> 401 -> status <> 403 -> status <> 404 ->
      status <> 500 -> status <> 502 -> status <> 503 -> status <> 504 ->
      detailOf data = Some (DetailErrors []) ->
      shown = Some (ContentBubble ""))).
Proof.
  intros reason shown.
  assert (Hshown : shown =
                   Some (if String.eqb reason "" then ContentBubble ""
                         else ErrorBubble reason)).
  { subst shown.
    destruct (exchange_messages text e (Rejected (ThrownError reason))
                endTime st) as (p & _ & Hm & Hs).
    unfold renderMessages. rewrite Hm, Hs, map_map, nth_error_map_snoc2.
    simpl. rewrite String.eqb_refl. unfold bubble. simpl.
    destruct (String.eqb reason ""); reflexivity. }
  assert (Hfull : reason <> "" -> shown = Some (ErrorBubble reason)).
  { intros Hne. rewrite Hshown.
    destruct (String.eqb_spec reason "") as [E | _];
      [contradiction | reflexivity]. }
  assert (Hempty : reason = "" -> shown = Some (ContentBubble "")).
  { intros E. rewrite Hshown, E. reflexivity. }
  split; [exact Hfull |]. split; [exact Hempty |]. split.
  - intros Hresp.
    pose proof (responseInterceptor_network_message error Hresp) as Hne.
    split; [exact Hne | exact (Hfull Hne)].
  - intros status data Hresp. split.
    + intros Hst.
      assert (Hne : reason <> "").
      { intros E. subst reason.
        rewrite (responseInterceptor_message error status data Hresp) in E.
        apply statusMessage_empty_iff in E. lia. }
      split; [exact Hne | exact (Hfull Hne)].
    + intros H400 H401 H403 H404 H500 H502 H503 H504 Hd.
      apply Hempty. subst reason.
      rewrite (responseInterceptor_message error status data Hresp).
      apply statusMessage_empty_iff. repeat split; assumption.
Qed.

(** The two cases at work: an answer of status 404 and an answer of status
    422 with an empty [detail] array. *)
Example failed_send_bubble_cases :
  let e := mkSendEnv "u1" 1000 "u2" 1001 1002 in
  let failing := fun error : AxiosError.t =>
    handleSendMessage "Hello" e
      (Rejected
         (ThrownError (ApiError.message (snd (responseInterceptor error)))))
      1300 (initialState "s1") in
  nth_error
    (renderMessages
       (failing (AxiosError.mk (Some (404, None)) true
                   (Some "ERR_BAD_REQUEST")))) 1 =
  Some (ErrorBubble "The requested resource was not found.") /\
  nth_error
    (renderMessages
       (failing (AxiosError.mk
                   (Some (422, Some (mkErrorData (Some (DetailErrors []))
                                       None)))
                   true (Some "ERR_BAD_REQUEST")))) 1 =
  Some (ContentBubble "").
Proof.
  split; reflexivity.
Qed.

(** ** Two exchanges at once *)

(** When two requests are in flight, the order in which they settle does
    not matter for the list: both orders leave the same messages, with
    both transient fields cleared.  It matters for the session id: a
    response whose session id differs from the one sent overwrites
    whatever is there, so the response that arrives last wins. *)
Theorem settlements_commute (p q : Pending) (o1 o2 : Outcome) (t1 t2 : Z)
    (st : ChatState) :
  agentMessageId p <> agentMessageId q ->
  let pq := handleSendMessage_settle p o1 t1
              (handleSendMessage_settle q o2 t2 st) in
  let qp := handleSendMessage_settle q o2 t2
              (handleSendMessage_settle p o1 t1 st) in
  messages pq = messages qp /\
  isLoading pq = false /\ isLoading qp = false /\
  streamingMessageId pq = None /\ streamingMessageId qp = None /\
  userPreferences pq = userPreferences qp /\
  (forall r, o1 = Resolved r ->
             ChatResponse.session_id r <> sentSessionId p ->
             sessionId pq = ChatResponse.session_id r) /\
  (forall r, o2 = Resolved r ->
             ChatResponse.session_id r <> sentSessionId q ->
             sessionId qp = ChatResponse.session_id r).
Proof.
  intros Hne pq qp. subst pq qp.
  destruct (settlePatch_keeps p o1 t1) as (Hp & _).
  destruct (settlePatch_keeps q o2 t2) as (Hq & _).
  split; [| split; [| split; [| split; [| split; [| split; [| split]]]]]].
  - rewrite !settle_messages, !map_map. apply map_ext. intros m.
    exact (patch_commute _ _ _ _ m Hne Hp Hq).
  - reflexivity.
  - reflexivity.
  - reflexivity.
  - reflexivity.
  - destruct o1 as [r1 | e1]; destruct o2 as [r2 | e2]; simpl;
      repeat match goal with
             | |- context [negb ?b] => destruct b; simpl
             end; reflexivity.
  - intros r -> Hr. rewrite settle_sessionId.
    destruct (String.eqb_spec (ChatResponse.session_id r) (sentSessionId p));
      [contradiction | reflexivity].
  - intros r -> Hr. rewrite settle_sessionId.
    destruct (String.eqb_spec (ChatResponse.session_id r) (sentSessionId q));
      [contradiction | reflexivity].
Qed.

Lemma settlements_commute_witness :
  let p := mkPending "x" "s1" (ChatRequest.mk "a" (Some "s1") "u" false) 1 in
  let q := mkPending "y" "s1" (ChatRequest.mk "b" (Some "s1") "u" false) 2 in
  let o1 := Resolved sampleResponse in
  let o2 := Rejected (ThrownError "boom") in
  messages (handleSendMessage_settle p o1 5
              (handleSendMessage_settle q o2 6 sampleThread)) =
  messages (handleSendMessage_settle q o2 6
              (handleSendMessage_settle p o1 5 sampleThread)) /\
  sessionId (handleSendMessage_settle p o1 5
               (handleSendMessage_settle q o2 6 sampleThread)) = "s2".
Proof.
  destruct (settlements_commute
              (mkPending "x" "s1" (ChatRequest.mk "a" (Some "s1") "u" false)
                 1)
              (mkPending "y" "s1" (ChatRequest.mk "b" (Some "s1") "u" false)
                 2)
              (Resolved sampleResponse) (Rejected (ThrownError "boom"))
              5 6 sampleThread ltac:(discriminate))
    as (Hm & _ & _ & _ & _ & _ & Hs & _).
  split; [exact Hm |].
  apply (Hs sampleResponse eq_refl). discriminate.
Defined.

Lemma run_ids_unique_witness :
  exists s,
    run overlappingRun (initSystem "s0") = Some s /\
    ids (store s) = ["u3"; "u4"; "u5"; "u6"] /\
    NoDup (ids (store s)).
Proof.
  eexists. split; [reflexivity |]. split; [reflexivity |].
  exact (run_ids_unique overlappingRun "s0" _ eq_refl).
Defined.

Lemma handleSendMessage_settle_success_witness :
  let p := mkPending "y" "s1" (ChatRequest.mk "a" (Some "s1") "u" false) 1 in
  nth_error
    (messages (handleSendMessage_settle p (Resolved sampleResponse) 5
                 sampleThread)) 1 =
  Some (mkMessage "y" agent "Hi there" 11 (Some []) (Some 120) (Some false)
          None).
Proof.
  exact (handleSendMessage_settle_success
           (mkPending "y" "s1" (ChatRequest.mk "a" (Some "s1") "u" false) 1)
           sampleResponse 5 sampleThread 1
           (mkMessage "y" agent "" 11 None None (Some true) None)
           eq_refl eq_refl).
Defined.
